(** * OAuth2 identity-verification providers (Slack, Spaces)

    A shallow embedding of the provider code of oauth2_proxy:

    - [Slack]        : src/providers/slack.go
    - [SlackEarlier] : src/unnamed/part_000, first file (the Slack provider
                       whose [SecondAttempt] tracks the configured scope)
    - [Spaces]       : src/unnamed/part_000, second file

    The Go standard library (net/http, net/url, path, encoding/json, fmt)
    is not part of the repository; the functions the providers call are
    gathered in the class [Platform] and in [Unmarshal], and every result
    below holds for all their implementations. *)

From Stdlib Require Import String Ascii ZArith List Bool Lia.
From stdpp Require Import base gmap strings.
Import ListNotations.

Local Open Scope string_scope.
Local Open Scope list_scope.

(* ===================================================================== *)
(** ** Values of the Go runtime *)
(* ===================================================================== *)

(** [url.URL], restricted to the fields the providers fill in. *)
Record URL := mkURL {
  Scheme : string;
  Host : string;
  Path : string;
  RawQuery : string
}.

(** [url.Values] and [http.Header] are both [map[string][]string]. *)
Definition values_Add (key value : string) (v : gmap string (list string))
  : gmap string (list string) :=
  <[ key := default [] (v !! key) ++ [value] ]> v.

Definition values_Set (key value : string) (v : gmap string (list string))
  : gmap string (list string) :=
  <[ key := [value] ]> v.

(** [Header.Get]: the first value stored under the key, or the empty
    string.  The keys of a response header are in canonical form, as is
    the one key the providers ask for. *)
Definition header_Get (h : gmap string (list string)) (key : string) : string :=
  match h !! key with
  | Some (v :: _) => v
  | _ => ""
  end.

(** [strings.Contains s substr]. *)
Fixpoint strings_Contains (s substr : string) : bool :=
  String.prefix substr s ||
  match s with
  | EmptyString => false
  | String _ rest => strings_Contains rest substr
  end.

(** Go [error] values that occur in the providers.  The library errors
    carry their message; the errors built with [fmt.Errorf] keep the
    arguments of the format. *)
Inductive error :=
| ErrDo (msg : string)
    (* returned by http.DefaultClient.Do *)
| ErrReadAll (msg : string)
    (* returned by ioutil.ReadAll *)
| ErrStatus (code : Z) (endpoint : URL) (body : string)
    (* fmt.Errorf("got %d from %q %s", resp.StatusCode, endpoint.String(), body) *)
| ErrUnmarshal (msg : string)
    (* returned by json.Unmarshal *)
| ErrNotOk (v : string)
    (* fmt.Errorf("slack response is not ok: %v", v) *)
| Errorf (msg : string).
    (* fmt.Errorf(msg), constant message *)

(** A Go pair [(value, err)] in which exactly one side is set. *)
Inductive result (A : Type) :=
| Ok (a : A)
| Err (e : error).
Arguments Ok {A} a.
Arguments Err {A} e.

(** The request built by [http.NewRequest("GET", endpoint.String(), nil)],
    kept as the URL value it was printed from. *)
Record Request := mkRequest {
  Method : string;
  Target : URL;
  ReqHeader : gmap string (list string)
}.

(** [http.Response] once the body has been drained with [ioutil.ReadAll]:
    [Body] is the outcome of that read. *)
Record Response := mkResponse {
  StatusCode : Z;
  Header : gmap string (list string);
  Body : result string
}.

(** What the process writes to standard output and to the standard
    logger. *)
Inductive Output :=
| Stdout (line : string)            (* fmt.Println of a string *)
| StdoutResponse (resp : Response)  (* fmt.Println(resp) *)
| Log (line : string).              (* log.Printf *)

(** The library functions the providers rely on.  [Upstream] is the state
    of the remote API; [http_Do] answers one request and moves it. *)
Class Platform := {
  Upstream : Type;
  http_Do : Request -> Upstream -> result Response * Upstream;
  path_Join : string -> string -> string;
  values_Encode : gmap string (list string) -> string;
  fmt_Sprintf : string -> string -> string
}.

(** [json.Unmarshal(body, &item)] for an [item] of type [T] that starts at
    its zero value. *)
Class Unmarshal (T : Type) := json_Unmarshal : string -> result T.

(** The tail of both [getEndpoint] functions, from [ioutil.ReadAll] to
    the final return: a failed read, a status other than 200 and a body
    that does not decode are errors; otherwise the response comes back
    with the decoded item. *)
Definition decodeResponse {T} `{Unmarshal T} (endpoint : URL) (resp : Response)
  : result (Response * T) :=
  match Body resp with
  | Err err => Err err
  | Ok body =>
      if negb (StatusCode resp =? 200)%Z
      then Err (ErrStatus (StatusCode resp) endpoint body)
      else
        match json_Unmarshal body with
        | Err err => Err err
        | Ok responseItem => Ok (resp, responseItem)
        end
  end.

(** [SessionState] and [ProviderData] are declared outside the two source
    files; the records hold the fields the providers read.  A provider is
    built by its constructor, which installs [ValidateURL] when it is
    nil, so the field is a URL value here. *)
Record SessionState := mkSession {
  AccessToken : string
}.

Record ProviderData := mkProviderData {
  ProviderName : string;
  ClientID : string;
  LoginURL : URL;
  RedeemURL : URL;
  ValidateURL : URL;
  Scope : string;
  ApprovalPrompt : string
}.

(* ===================================================================== *)
(** ** The effect monad: network calls and console output *)
(* ===================================================================== *)

Section Effects.
Context `{Platform}.

Record World := mkWorld {
  net : Upstream;
  calls : list Request;
  console : list Output
}.

Definition IO (A : Type) : Type := World -> A * World.

Definition ret {A} (a : A) : IO A := fun w => (a, w).

Definition bind {A B} (m : IO A) (k : A -> IO B) : IO B :=
  fun w => let (a, w') := m w in k a w'.

(** [http.DefaultClient.Do(req)] followed by reading the body. *)
Definition client_Do (req : Request) : IO (result Response) :=
  fun w =>
    let (r, u) := http_Do req (net w) in
    (r, {| net := u; calls := calls w ++ [req]; console := console w |}).

Definition emit (o : Output) : IO unit :=
  fun w =>
    (tt, {| net := net w; calls := calls w; console := console w ++ [o] |}).
End Effects.

Notation "x <- m ;; k" := (bind m (fun x => k))
(at level 100, m at next level, right associativity).
Notation "m ;;; k" := (bind m (fun _ => k))
(at level 100, right associativity).

(* ===================================================================== *)
(** ** src/providers/slack.go *)
(* ===================================================================== *)

Module Slack.

Record SlackProvider := mkSlackProvider {
  providerData : ProviderData;
  TeamID : string;
  GroupID : string
}.

Record SlackUserItem := mkSlackUserItem {
  Item_ID : string;
  Item_Name : string;
  Item_Email : string
}.

(** Slack API response for users.identity. *)
Record SlackUserIdentityResponse := mkSlackUserIdentityResponse {
  Identity_OK : bool;
  User : SlackUserItem;
  Team : SlackUserItem
}.

Record SlackGroupItem := mkSlackGroupItem {
  Group_ID : string;
  Group_Name : string
}.

Record SlackGroupListResponse := mkSlackGroupListResponse {
  GroupList_OK : bool;
  Groups : list SlackGroupItem
}.

Record SlackAuthTestResponse := mkSlackAuthTestResponse {
  AuthTest_OK : bool
}.

(** The [%v] verb of package fmt on the response structs. *)
Definition fmt_v_bool (b : bool) : string := if b then "true" else "false".

Definition fmt_v_item (i : SlackUserItem) : string :=
  "{" +:+ Item_ID i +:+ " " +:+ Item_Name i +:+ " " +:+ Item_Email i +:+ "}".

Definition fmt_v_identity (r : SlackUserIdentityResponse) : string :=
  "{" +:+ fmt_v_bool (Identity_OK r) +:+ " " +:+ fmt_v_item (User r)
      +:+ " " +:+ fmt_v_item (Team r) +:+ "}".

Definition fmt_v_group (g : SlackGroupItem) : string :=
  "{" +:+ Group_ID g +:+ " " +:+ Group_Name g +:+ "}".

Definition fmt_v_groups (l : list SlackGroupItem) : string :=
  "[" +:+ String.concat " " (map fmt_v_group l) +:+ "]".

Definition fmt_v_grouplist (r : SlackGroupListResponse) : string :=
  "{" +:+ fmt_v_bool (GroupList_OK r) +:+ " " +:+ fmt_v_groups (Groups r) +:+ "}".

(** SetGroupID to check if the member is in a given group. *)
Definition SetGroupID (p : SlackProvider) (group : string) : SlackProvider :=
  if negb (String.eqb group "")
  then {| providerData := providerData p; TeamID := TeamID p; GroupID := group |}
  else p.

Definition hasTeamID (p : SlackProvider) (resp : SlackUserIdentityResponse) : bool :=
  String.eqb (Item_ID (Team resp)) (TeamID p).

(** The [range] loop of [hasGroupID], returning at the first match. *)
Fixpoint hasGroupID_range (groups : list SlackGroupItem) (groupID : string) : bool :=
  match groups with
  | [] => false
  | group :: rest =>
      if String.eqb (Group_ID group) groupID then true
      else hasGroupID_range rest groupID
  end.

Definition hasGroupID (p : SlackProvider) (resp : SlackGroupListResponse) : bool :=
  hasGroupID_range (Groups resp) (GroupID p).

Section Calls.
Context `{Platform}.
Context `{Unmarshal SlackUserIdentityResponse}.
Context `{Unmarshal SlackGroupListResponse}.
Context `{Unmarshal SlackAuthTestResponse}.

(** Lines 97-110 of [getEndpoint]: the token joins the query parameters
    and the request goes to ValidateURL's path extended by the endpoint
    name. *)
Definition endpointRequest (p : SlackProvider) (endpointName accessToken : string)
    (params : option (gmap string (list string))) : Request :=
  let params :=
    match params with
    | Some v => values_Add "token" accessToken v
    | None => {[ "token" := [accessToken] ]}
    end in
  let endpoint :=
    {| Scheme := Scheme (ValidateURL (providerData p));
       Host := Host (ValidateURL (providerData p));
       Path := path_Join (Path (ValidateURL (providerData p))) ("/" +:+ endpointName);
       RawQuery := values_Encode params |} in
  {| Method := "GET"; Target := endpoint; ReqHeader := ∅ |}.

Definition getEndpoint {T} `{Unmarshal T} (p : SlackProvider)
    (endpointName accessToken : string)
    (params : option (gmap string (list string)))
  : IO (result (Response * T)) :=
  let req := endpointRequest p endpointName accessToken params in
  r <- client_Do req ;;
  match r with
  | Err err => ret (Err err)
  | Ok resp => ret (decodeResponse (Target req) resp)
  end.

Definition getIdentity (p : SlackProvider) (accessToken : string)
  : IO (result SlackUserIdentityResponse) :=
  r <- getEndpoint p "users.identity" accessToken None ;;
  match r with
  | Err err => ret (Err err)
  | Ok (_, userIdentity) =>
      if Identity_OK userIdentity then ret (Ok userIdentity)
      else ret (Err (ErrNotOk (fmt_v_identity userIdentity)))
  end.

(** The [url.Values] literal [getGroups] passes to [getEndpoint]. *)
Definition groupParams : option (gmap string (list string)) :=
  Some {[ "exclude_archived" := ["true"]; "exclude_members" := ["true"] ]}.

Definition getGroups (p : SlackProvider) (accessToken : string)
  : IO (result SlackGroupListResponse) :=
  r <- getEndpoint p "groups.list" accessToken groupParams ;;
  match r with
  | Err err => ret (Err err)
  | Ok (_, groupList) =>
      if GroupList_OK groupList then ret (Ok groupList)
      else ret (Err (ErrNotOk (fmt_v_grouplist groupList)))
  end.

Definition GetEmailAddress (p : SlackProvider) (s : SessionState)
  : IO (string * option error) :=
  r <- getIdentity p (AccessToken s) ;;
  match r with
  | Err _ => ret ("", None)
  | Ok userIdentity =>
      let email :=
        if negb (String.eqb (Item_Email (User userIdentity)) "")
        then ret (Item_Email (User userIdentity), None)
        else ret ("", None) in
      (* if we require a TeamID, check that first *)
      if negb (String.eqb (TeamID p) "") && negb (hasTeamID p userIdentity)
      then
        emit (Log ("teamid: " +:+ Item_ID (Team userIdentity)
                   +:+ " does not match with " +:+ TeamID p)) ;;;
        ret ("", Some (Errorf "team id doesn't match"))
      else
        (* same for GroupID *)
        if negb (String.eqb (GroupID p) "")
        then
          g <- getGroups p (AccessToken s) ;;
          match g with
          | Err _ => ret ("", None)
          | Ok groupList =>
              if negb (hasGroupID p groupList)
              then
                emit (Log ("groupid: " +:+ fmt_v_groups (Groups groupList)
                           +:+ " does not match with " +:+ GroupID p)) ;;;
                ret ("", Some (Errorf "group id doesn't match"))
              else email
          end
        else email
  end.

(** SecondAttempt checks what scopes our token has by requesting a test
    endpoint and checking the headers; returns true until all scopes are
    there. *)
Definition SecondAttempt (p : SlackProvider) (session : SessionState) : IO bool :=
  r <- getEndpoint (T := SlackAuthTestResponse) p "auth.test" (AccessToken session) None ;;
  match r with
  | Err _ => ret false
  | Ok (resp, _) =>
      if strings_Contains (header_Get (Header resp) "X-Oauth-Scopes") "groups"
         || String.eqb (GroupID p) ""
      then ret false
      else ret true
  end.

End Calls.
End Slack.

(* ===================================================================== *)
(** ** src/unnamed/part_000, first file: the earlier Slack provider *)
(* ===================================================================== *)

(** The struct declarations, [getIdentity], [getGroups], [hasTeamID],
    [hasGroupID] and [GetEmailAddress] of this file are those of
    slack.go; it differs in [SecondAttempt], which takes no session and
    writes to the provider's [Scope]. *)
Module SlackEarlier.
Import Slack.

Section Calls.
Context `{Platform}.

(** The store [p.Scope = "groups:read"] goes through the embedded
    [*ProviderData]. *)
Definition setScope (p : SlackProvider) (scope : string) : SlackProvider :=
  {| providerData :=
       {| ProviderName := ProviderName (providerData p);
          ClientID := ClientID (providerData p);
          LoginURL := LoginURL (providerData p);
          RedeemURL := RedeemURL (providerData p);
          ValidateURL := ValidateURL (providerData p);
          Scope := scope;
          ApprovalPrompt := ApprovalPrompt (providerData p) |};
     TeamID := TeamID p;
     GroupID := GroupID p |}.

(** [p] is a pointer receiver: the provider after the call is returned
    next to the boolean. *)
Definition SecondAttempt (p : SlackProvider) : IO (bool * SlackProvider) :=
  emit (Stdout (GroupID p)) ;;;
  if strings_Contains (Scope (providerData p)) "groups:read"
     || String.eqb (GroupID p) ""
  then ret (false, p)
  else ret (true, setScope p "groups:read").

End Calls.
End SlackEarlier.

(* ===================================================================== *)
(** ** src/unnamed/part_000, second file: the Spaces provider *)
(* ===================================================================== *)

Module Spaces.

Record SpacesProvider := mkSpacesProvider {
  providerData : ProviderData;
  APIUser : string;
  APISpace : string;
  SpaceID : string
}.

(** SpacesUserIdentityResponse has basic user information. *)
Record SpacesUserIdentityResponse := mkSpacesUserIdentityResponse {
  Profile_ID : string;
  EMail : string
}.

(** SpacesSpaceResponse has space information (if user has access). *)
Record SpacesSpaceResponse := mkSpacesSpaceResponse {
  Space_ID : string
}.

Definition SetSpaceID (p : SpacesProvider) (space : string) : SpacesProvider :=
  {| providerData := providerData p;
     APIUser := APIUser p;
     APISpace := APISpace p;
     SpaceID := space |}.

Section Calls.
Context `{Platform}.
Context `{Unmarshal SpacesUserIdentityResponse}.
Context `{Unmarshal SpacesSpaceResponse}.

(** The request of [getEndpoint]: the token travels in the
    Authorization header. *)
Definition endpointRequest (p : SpacesProvider) (endpointName accessToken : string)
    (params : option (gmap string (list string))) : Request :=
  let params :=
    match params with
    | Some v => v
    | None => ∅
    end in
  let endpoint :=
    {| Scheme := Scheme (ValidateURL (providerData p));
       Host := Host (ValidateURL (providerData p));
       Path := path_Join (Path (ValidateURL (providerData p))) endpointName;
       RawQuery := values_Encode params |} in
  {| Method := "GET";
     Target := endpoint;
     ReqHeader := values_Set "Authorization" ("Bearer " +:+ accessToken) ∅ |}.

Definition getEndpoint {T} `{Unmarshal T} (p : SpacesProvider)
    (endpointName accessToken : string)
    (params : option (gmap string (list string)))
  : IO (result (Response * T)) :=
  let req := endpointRequest p endpointName accessToken params in
  emit (Stdout accessToken) ;;;
  r <- client_Do req ;;
  match r with
  | Err err => ret (Err err)
  | Ok resp =>
      emit (StdoutResponse resp) ;;;
      ret (decodeResponse (Target req) resp)
  end.

Definition GetEmailAddress (p : SpacesProvider) (s : SessionState)
  : IO (string * option error) :=
  r <- getEndpoint (T := SpacesUserIdentityResponse) p (APIUser p) (AccessToken s) None ;;
  match r with
  | Err err => ret ("", Some err)
  | Ok (_, userIdentity) =>
      (* Check for the right space ID *)
      if negb (String.eqb (SpaceID p) "")
      then
        r' <- getEndpoint (T := SpacesSpaceResponse) p
                (fmt_Sprintf (APISpace p) (SpaceID p)) (AccessToken s) None ;;
        match r' with
        | Err err => ret ("", Some err)
        | Ok (_, spaceInformation) => ret (EMail userIdentity, None)
        end
      else ret (EMail userIdentity, None)
  end.

End Calls.
End Spaces.

(* ===================================================================== *)
(** ** Construction and login URLs *)
(* ===================================================================== *)

(** The two functions of package net/url the constructors and the login
    URL builders call: [url.ParseQuery] (its error is discarded by the
    callers, the values it returns are kept) and the [String] method of
    a URL. *)
Class NetURL := {
  url_ParseQuery : string -> gmap string (list string);
  url_String : URL -> string
}.

(** [ProviderData] as it reaches a constructor: the URL pointers may
    still be nil. *)
Module Config.
Record ProviderData := mkProviderData {
  ProviderName : string;
  ClientID : string;
  LoginURL : option URL;
  RedeemURL : option URL;
  ValidateURL : option URL;
  Scope : string;
  ApprovalPrompt : string
}.
End Config.

(** The test both constructors apply to each of the three URLs: a nil
    pointer, or a URL whose [String()] is empty, is replaced by the
    provider's well-known URL. *)
Definition urlOrDefault `{NetURL} (u : option URL) (fallback : URL) : URL :=
  match u with
  | None => fallback
  | Some u => if String.eqb (url_String u) "" then fallback else u
  end.

(** The assignment [p.LoginURL.RawQuery = query]. *)
Definition setLoginRawQuery (d : ProviderData) (query : string) : ProviderData :=
  {| ProviderName := ProviderName d;
     ClientID := ClientID d;
     LoginURL := {| Scheme := Scheme (LoginURL d);
                    Host := Host (LoginURL d);
                    Path := Path (LoginURL d);
                    RawQuery := query |};
     RedeemURL := RedeemURL d;
     ValidateURL := ValidateURL d;
     Scope := Scope d;
     ApprovalPrompt := ApprovalPrompt d |}.

(** The functions of slack.go (and, unchanged, of the earlier file)
    that run before a token exists. *)
Module SlackSetup.
Import Slack.

Section Setup.
Context `{Platform}.
Context `{NetURL}.

Definition NewSlackProvider (p : Config.ProviderData) : SlackProvider :=
  {| providerData :=
       {| ProviderName := "slack";
          ClientID := Config.ClientID p;
          LoginURL := urlOrDefault (Config.LoginURL p)
                        {| Scheme := "https"; Host := "slack.com";
                           Path := "/oauth/authorize"; RawQuery := "" |};
          RedeemURL := urlOrDefault (Config.RedeemURL p)
                         {| Scheme := "https"; Host := "slack.com";
                            Path := "/api/oauth.access"; RawQuery := "" |};
          ValidateURL := urlOrDefault (Config.ValidateURL p)
                           {| Scheme := "https"; Host := "slack.com";
                              Path := "/api"; RawQuery := "" |};
          Scope := if String.eqb (Config.Scope p) ""
                   then "identity.basic identity.email"
                   else Config.Scope p;
          ApprovalPrompt := Config.ApprovalPrompt p |};
     TeamID := "";
     GroupID := "" |}.

(** SetTeamID to check if the member is in the right team. *)
Definition SetTeamID (p : SlackProvider) (team : string) : SlackProvider :=
  if negb (String.eqb team "")
  then
    (* If a team id is set we can restrict login to this team directly at login *)
    let params := url_ParseQuery (RawQuery (LoginURL (providerData p))) in
    let params := values_Set "team" team params in
    {| providerData := setLoginRawQuery (providerData p) (values_Encode params);
       TeamID := team;
       GroupID := GroupID p |}
  else p.

(** The [url.Values] of [GetLoginURL] just before [params.Encode()]. *)
Definition loginParams (p : SlackProvider) (redirectURI state : string) (second : bool)
  : gmap string (list string) :=
  let params := url_ParseQuery (RawQuery (LoginURL (providerData p))) in
  let params := values_Set "redirect_uri" redirectURI params in
  let params := values_Set "approval_prompt" (ApprovalPrompt (providerData p)) params in
  let params :=
    if second then values_Set "scope" "groups:read" params
    else values_Add "scope" (Scope (providerData p)) params in
  let params := values_Set "client_id" (ClientID (providerData p)) params in
  let params := values_Set "response_type" "code" params in
  values_Add "state" state params.

(** GetLoginURL with typical oauth parameters; requests a different scope
    on the second try.  [a] is a copy of [*p.LoginURL]. *)
Definition GetLoginURL (p : SlackProvider) (redirectURI state : string) (second : bool)
  : string :=
  let a := LoginURL (providerData p) in
  url_String {| Scheme := Scheme a;
                Host := Host a;
                Path := Path a;
                RawQuery := values_Encode (loginParams p redirectURI state second) |}.

End Setup.
End SlackSetup.

(** The calls of the earlier Slack provider (part_000, lines 92-198):
    [getEndpoint] returns the error alone and leaves the decoded item in
    [responseItem]; the request it builds is that of slack.go. *)
Module SlackEarlierCalls.
Import Slack.

Section Calls.
Context `{Platform}.
Context `{Unmarshal SlackUserIdentityResponse}.
Context `{Unmarshal SlackGroupListResponse}.

Definition getEndpoint {T} `{Unmarshal T} (p : SlackProvider)
    (endpointName accessToken : string)
    (params : option (gmap string (list string)))
  : IO (result T) :=
  let req := endpointRequest p endpointName accessToken params in
  r <- client_Do req ;;
  match r with
  | Err err => ret (Err err)
  | Ok resp =>
      match decodeResponse (Target req) resp with
      | Err err => ret (Err err)
      | Ok (_, responseItem) => ret (Ok responseItem)
      end
  end.

Definition getIdentity (p : SlackProvider) (accessToken : string)
  : IO (result SlackUserIdentityResponse) :=
  r <- getEndpoint p "users.identity" accessToken None ;;
  match r with
  | Err err => ret (Err err)
  | Ok userIdentity =>
      if Identity_OK userIdentity then ret (Ok userIdentity)
      else ret (Err (ErrNotOk (fmt_v_identity userIdentity)))
  end.

Definition getGroups (p : SlackProvider) (accessToken : string)
  : IO (result SlackGroupListResponse) :=
  r <- getEndpoint p "groups.list" accessToken groupParams ;;
  match r with
  | Err err => ret (Err err)
  | Ok groupList =>
      if GroupList_OK groupList then ret (Ok groupList)
      else ret (Err (ErrNotOk (fmt_v_grouplist groupList)))
  end.

Definition GetEmailAddress (p : SlackProvider) (s : SessionState)
  : IO (string * option error) :=
  r <- getIdentity p (AccessToken s) ;;
  match r with
  | Err _ => ret ("", None)
  | Ok userIdentity =>
      let email :=
        if negb (String.eqb (Item_Email (User userIdentity)) "")
        then ret (Item_Email (User userIdentity), None)
        else ret ("", None) in
      if negb (String.eqb (TeamID p) "") && negb (hasTeamID p userIdentity)
      then
        emit (Log ("teamid: " +:+ Item_ID (Team userIdentity)
                   +:+ " does not match with " +:+ TeamID p)) ;;;
        ret ("", Some (Errorf "team id doesn't match"))
      else
        if negb (String.eqb (GroupID p) "")
        then
          g <- getGroups p (AccessToken s) ;;
          match g with
          | Err _ => ret ("", None)
          | Ok groupList =>
              if negb (hasGroupID p groupList)
              then
                emit (Log ("groupid: " +:+ fmt_v_groups (Groups groupList)
                           +:+ " does not match with " +:+ GroupID p)) ;;;
                ret ("", Some (Errorf "group id doesn't match"))
              else email
          end
        else email
  end.

End Calls.
End SlackEarlierCalls.

Module SpacesSetup.
Import Spaces.

Section Setup.
Context `{NetURL}.

Definition NewSpacesProvider (p : Config.ProviderData) : SpacesProvider :=
  {| providerData :=
       {| ProviderName := "spaces";
          ClientID := Config.ClientID p;
          LoginURL := urlOrDefault (Config.LoginURL p)
                        {| Scheme := "https"; Host := "signup.spaces.de";
                           Path := "/o/oauth2/auth"; RawQuery := "" |};
          RedeemURL := urlOrDefault (Config.RedeemURL p)
                         {| Scheme := "https"; Host := "signup.spaces.de";
                            Path := "/o/oauth2/token"; RawQuery := "" |};
          ValidateURL := urlOrDefault (Config.ValidateURL p)
                           {| Scheme := "https"; Host := "api.spaces.de";
                              Path := "/v1"; RawQuery := "" |};
          Scope := if String.eqb (Config.Scope p) ""
                   then "profile:read spaces:read"
                   else Config.Scope p;
          ApprovalPrompt := Config.ApprovalPrompt p |};
     APIUser := "users/me/profile";
     APISpace := "spaces/%s"; (* space id placeholder *)
     SpaceID := "" |}.

End Setup.
End SpacesSetup.

(* ===================================================================== *)
(** ** Vocabulary of the statements *)
(* ===================================================================== *)

(** ASCII lower-casing, to speak of identifiers that differ only in
    case. *)
Definition ascii_lower (c : ascii) : ascii :=
  let n := nat_of_ascii c in
  if (65 <=? n)%nat && (n <=? 90)%nat then ascii_of_nat (n + 32) else c.

Fixpoint to_lower (s : string) : string :=
  match s with
  | EmptyString => EmptyString
  | String c rest => String (ascii_lower c) (to_lower rest)
  end.

(** The two policy denials of [Slack.GetEmailAddress]. *)
Definition teamDenial : error := Errorf "team id doesn't match".
Definition groupDenial : error := Errorf "group id doesn't match".

(** What a [getEndpoint] call hands back, read off the upstream's answer
    to its request. *)
Definition outcome `{Platform} {T} `{Unmarshal T} (req : Request) (w : World)
  : result (Response * T) :=
  match fst (http_Do req (net w)) with
  | Err err => Err err
  | Ok resp => decodeResponse (Target req) resp
  end.

(** The ways a [getEndpoint] call fails, with the error it returns:
    transport error, failed read of the body, status other than 200,
    body that does not decode into [T]. *)
Inductive FetchFailure `{Platform} (T : Type) `{Unmarshal T} (req : Request) (w : World)
  : error -> Prop :=
| transport_error err :
    fst (http_Do req (net w)) = Err err ->
    FetchFailure T req w err
| read_error resp err :
    fst (http_Do req (net w)) = Ok resp ->
    Body resp = Err err ->
    FetchFailure T req w err
| status_error resp body :
    fst (http_Do req (net w)) = Ok resp ->
    Body resp = Ok body ->
    StatusCode resp <> 200%Z ->
    FetchFailure T req w (ErrStatus (StatusCode resp) (Target req) body)
| decode_error resp body err :
    fst (http_Do req (net w)) = Ok resp ->
    Body resp = Ok body ->
    StatusCode resp = 200%Z ->
    json_Unmarshal (T := T) body = Err err ->
    FetchFailure T req w err.

(** A computation whose result depends on the world only through the
    upstream state, and which hands that state back as it found it. *)
Definition steady `{Platform} {A} (m : IO A) : Prop :=
  forall w w' : World,
    net w = net w' ->
    fst (m w) = fst (m w') /\ net (snd (m w)) = net w.

(** What Spaces' [getEndpoint] prints after the token: the response,
    when there is one. *)
Definition printedResponse (r : result Response) : list Output :=
  match r with
  | Ok resp => [StdoutResponse resp]
  | Err _ => []
  end.

(** The upstream keeps its state across a request: the reading of "no
    upstream state change" used for repeated calls. *)
Definition quiescent `{Platform} : Prop :=
  forall req u, snd (http_Do req u) = u.

(* ===================================================================== *)
(** ** A canned platform for concrete runs *)
(* ===================================================================== *)

Module Canned.

(** [fmt.Sprintf] for a format whose only verb is [%s]. *)
Fixpoint sprintf_s (format arg : string) : string :=
  match format with
  | String "%" (String "s" rest) => arg +:+ sprintf_s rest arg
  | String c rest => String c (sprintf_s rest arg)
  | EmptyString => EmptyString
  end.

Definition encode (v : gmap string (list string)) : string :=
  String.concat "&"
    (flat_map (fun kv => map (fun x => fst kv +:+ "=" +:+ x) (snd kv))
              (map_to_list v)).

(** The upstream is a table from request paths to answers; a path that
    is not listed refuses the connection.  Answering leaves the table as
    it is. *)
Fixpoint answer (table : list (string * result Response)) (path : string)
  : result Response :=
  match table with
  | [] => Err (ErrDo "connection refused")
  | (p, r) :: rest => if String.eqb p path then r else answer rest path
  end.

Definition platform : Platform :=
  {| Upstream := list (string * result Response);
     http_Do := fun req table => (answer table (Path (Target req)), table);
     path_Join := fun a b => if String.prefix "/" b then a +:+ b else a +:+ "/" +:+ b;
     values_Encode := encode;
     fmt_Sprintf := sprintf_s |}.

Definition ok200 (headers : gmap string (list string)) (body : string) : Response :=
  {| StatusCode := 200; Header := headers; Body := Ok body |}.

Definition status (code : Z) (body : string) : Response :=
  {| StatusCode := code; Header := ∅; Body := Ok body |}.

(** Decoders that know a handful of bodies. *)
Definition decodeIdentity : Unmarshal Slack.SlackUserIdentityResponse :=
  fun body =>
    if String.eqb body "alice of T1" then
      Ok {| Slack.Identity_OK := true;
            Slack.User := Slack.mkSlackUserItem "U1" "alice" "a@x.com";
            Slack.Team := Slack.mkSlackUserItem "T1" "one" "" |}
    else if String.eqb body "not ok" then
      Ok {| Slack.Identity_OK := false;
            Slack.User := Slack.mkSlackUserItem "" "" "";
            Slack.Team := Slack.mkSlackUserItem "" "" "" |}
    else Err (ErrUnmarshal "invalid character").

Definition decodeGroups : Unmarshal Slack.SlackGroupListResponse :=
  fun body =>
    if String.eqb body "G1 G9" then
      Ok {| Slack.GroupList_OK := true;
            Slack.Groups := [Slack.mkSlackGroupItem "G1" "general";
                             Slack.mkSlackGroupItem "G9" "ops"] |}
    else if String.eqb body "G1" then
      Ok {| Slack.GroupList_OK := true;
            Slack.Groups := [Slack.mkSlackGroupItem "G1" "general"] |}
    else if String.eqb body "not ok" then
      Ok {| Slack.GroupList_OK := false; Slack.Groups := [] |}
    else Err (ErrUnmarshal "invalid character").

Definition decodeAuthTest : Unmarshal Slack.SlackAuthTestResponse :=
  fun body =>
    if String.eqb body "ok" then Ok {| Slack.AuthTest_OK := true |}
    else Err (ErrUnmarshal "invalid character").

Definition decodeProfile : Unmarshal Spaces.SpacesUserIdentityResponse :=
  fun body =>
    if String.eqb body "alice" then
      Ok {| Spaces.Profile_ID := "u1"; Spaces.EMail := "a@x.com" |}
    else Err (ErrUnmarshal "invalid character").

Definition decodeSpace : Unmarshal Spaces.SpacesSpaceResponse :=
  fun body =>
    if String.eqb body "space S2" then Ok {| Spaces.Space_ID := "S2" |}
    else Err (ErrUnmarshal "invalid character").

Definition data : ProviderData :=
  {| ProviderName := "slack";
     ClientID := "client";
     LoginURL := mkURL "https" "slack.com" "/oauth/authorize" "";
     RedeemURL := mkURL "https" "slack.com" "/api/oauth.access" "";
     ValidateURL := mkURL "https" "slack.com" "/api" "";
     Scope := "identity.basic identity.email";
     ApprovalPrompt := "force" |}.

Definition slack (team group : string) : Slack.SlackProvider :=
  {| Slack.providerData := data; Slack.TeamID := team; Slack.GroupID := group |}.

Definition spacesData : ProviderData :=
  {| ProviderName := "spaces";
     ClientID := "client";
     LoginURL := mkURL "https" "signup.spaces.de" "/o/oauth2/auth" "";
     RedeemURL := mkURL "https" "signup.spaces.de" "/o/oauth2/token" "";
     ValidateURL := mkURL "https" "api.spaces.de" "/v1" "";
     Scope := "profile:read spaces:read";
     ApprovalPrompt := "force" |}.

Definition spaces (space : string) : Spaces.SpacesProvider :=
  {| Spaces.providerData := spacesData;
     Spaces.APIUser := "users/me/profile";
     Spaces.APISpace := "spaces/%s";
     Spaces.SpaceID := space |}.

Definition session : SessionState := {| AccessToken := "xoxp-secret" |}.

Definition world (table : list (string * result Response)) : @World platform :=
  @mkWorld platform table [] [].

(** Slack answering the identity call for alice, member of team T1, and
    the group listing with G1 and G9. *)
Definition slackUp : list (string * result Response) :=
  [ ("/api/users.identity", Ok (ok200 ∅ "alice of T1"));
    ("/api/groups.list", Ok (ok200 ∅ "G1 G9"));
    ("/api/auth.test",
     Ok (ok200 {[ "X-Oauth-Scopes" := ["identity.basic,identity.email"] ]} "ok")) ].

(** The same with the group listing out of order. *)
Definition slackGroupsDown : list (string * result Response) :=
  [ ("/api/users.identity", Ok (ok200 ∅ "alice of T1"));
    ("/api/groups.list", Ok (status 500 "oops")) ].

(** The identity endpoint answers 500. *)
Definition slackDown : list (string * result Response) :=
  [ ("/api/users.identity", Ok (status 500 "oops")) ].

(** The identity endpoint answers 200 with an envelope that is not ok. *)
Definition slackRejects : list (string * result Response) :=
  [ ("/api/users.identity", Ok (ok200 ∅ "not ok"));
    ("/api/groups.list", Ok (ok200 ∅ "not ok")) ].

(** The envelopes [decodeIdentity] produces. *)
Definition alice : Slack.SlackUserIdentityResponse :=
  {| Slack.Identity_OK := true;
     Slack.User := Slack.mkSlackUserItem "U1" "alice" "a@x.com";
     Slack.Team := Slack.mkSlackUserItem "T1" "one" "" |}.

Definition rejected : Slack.SlackUserIdentityResponse :=
  {| Slack.Identity_OK := false;
     Slack.User := Slack.mkSlackUserItem "" "" "";
     Slack.Team := Slack.mkSlackUserItem "" "" "" |}.

(** The world after alice's identity has been fetched from [slackUp]. *)
Definition afterIdentity (p : Slack.SlackProvider) : @World platform :=
  snd (@Slack.getIdentity platform decodeIdentity p "xoxp-secret" (world slackUp)).

Definition spacesUp : list (string * result Response) :=
  [ ("/v1/users/me/profile", Ok (ok200 ∅ "alice"));
    ("/v1/spaces/S1", Ok (ok200 ∅ "space S2")) ].

Definition spacesDown : list (string * result Response) :=
  [ ("/v1/users/me/profile", Ok (status 500 "oops")) ].

End Canned.

(** Canned net/url: a printer without escaping, and a query parser that
    knows the queries of the runs below. *)
Module CannedURL.

Definition print (u : URL) : string :=
  if String.eqb (Scheme u +:+ Host u +:+ Path u +:+ RawQuery u) "" then ""
  else Scheme u +:+ "://" +:+ Host u +:+ Path u +:+
       (if String.eqb (RawQuery u) "" then "" else "?" +:+ RawQuery u).

Definition parse (query : string) : gmap string (list string) :=
  if String.eqb query "team=T1" then {[ "team" := ["T1"] ]}
  else if String.eqb query "state=old" then {[ "state" := ["old"] ]}
  else ∅.

Definition neturl : NetURL :=
  {| url_ParseQuery := parse; url_String := print |}.

(** An operator configuration that sets the client id and nothing
    else. *)
Definition bare : Config.ProviderData :=
  {| Config.ProviderName := "";
     Config.ClientID := "client";
     Config.LoginURL := None;
     Config.RedeemURL := None;
     Config.ValidateURL := None;
     Config.Scope := "";
     Config.ApprovalPrompt := "force" |}.

End CannedURL.

(* ===================================================================== *)
(** ** Running the monad *)
(* ===================================================================== *)

Section EffectFacts.
Context `{Platform}.

Lemma bind_run {A B} (m : IO A) (k : A -> IO B) (w w' : World) (a : A) :
  m w = (a, w') -> bind m k w = k a w'.
Proof. intros E. unfold bind. now rewrite E. Qed.

Lemma run_surjective {A} (m : IO A) (w : World) : m w = (fst (m w), snd (m w)).
Proof. now destruct (m w). Qed.

Lemma client_Do_run (req : Request) (w : World) :
  client_Do req w =
  (fst (http_Do req (net w)),
   {| net := snd (http_Do req (net w));
      calls := calls w ++ [req];
      console := console w |}).
Proof. unfold client_Do. now destruct (http_Do req (net w)). Qed.

End EffectFacts.

Lemma negb_eqb_empty (s : string) : negb (String.eqb s "") = true <-> s <> "".
Proof.
  rewrite negb_true_iff. split.
  - intros E. now apply String.eqb_neq.
  - intros E. now apply String.eqb_neq.
Qed.

(** [strings_Contains] finds exactly the substrings. *)
Lemma prefix_spec (a s : string) :
  String.prefix a s = true <-> exists post, s = a +:+ post.
Proof.
  revert s. induction a as [|c a IH]; intros s.
  - split; [intros _; now exists s | now destruct s].
  - destruct s as [|d s]; cbn [String.prefix].
    + split; [discriminate | intros [post C]; discriminate].
    + destruct (ascii_dec c d) as [-> | Hcd].
      * rewrite IH. split; intros [post E]; exists post.
        -- cbn. now rewrite E.
        -- now injection E.
      * split; [discriminate|]. intros [post E]. injection E. congruence.
Qed.

Lemma strings_Contains_spec (s substr : string) :
  strings_Contains s substr = true <->
  exists pre post, s = pre +:+ substr +:+ post.
Proof.
  induction s as [|c s IH]; cbn [strings_Contains]; rewrite orb_true_iff, prefix_spec.
  - split.
    + intros [[post E] | C]; [|discriminate]. now exists "", post.
    + intros (pre & post & E). left. destruct pre; [now exists post | discriminate].
  - rewrite IH. split.
    + intros [[post E] | (pre & post & E)].
      * now exists "", post.
      * exists (String c pre), post. cbn. now rewrite E.
    + intros (pre & post & E). destruct pre as [|d pre].
      * left. now exists post.
      * right. injection E as _ E. now exists pre, post.
Qed.

(* ===================================================================== *)
(** ** Facts about src/providers/slack.go *)
(* ===================================================================== *)

Section SlackFacts.
Import Slack.
Context `{Platform}.
Context `{Unmarshal SlackUserIdentityResponse}.
Context `{Unmarshal SlackGroupListResponse}.
Context `{Unmarshal SlackAuthTestResponse}.

(** One call of [getEndpoint] is one request: the world afterwards has
    that request appended and the console untouched. *)
Lemma getEndpoint_run {T} `{Unmarshal T} p endpointName accessToken params (w : World) :
  getEndpoint (T := T) p endpointName accessToken params w =
  (outcome (endpointRequest p endpointName accessToken params) w,
   {| net := snd (http_Do (endpointRequest p endpointName accessToken params) (net w));
      calls := calls w ++ [endpointRequest p endpointName accessToken params];
      console := console w |}).
Proof.
  unfold getEndpoint, outcome.
  erewrite bind_run by apply client_Do_run.
  cbn [fst snd]. now destruct (fst (http_Do _ (net w))).
Qed.

Lemma decodeResponse_ok {T} `{Unmarshal T} endpoint resp body (item : T) :
  Body resp = Ok body -> StatusCode resp = 200%Z -> json_Unmarshal body = Ok item ->
  decodeResponse endpoint resp = Ok (resp, item).
Proof.
  intros Eb Es Ej. unfold decodeResponse. rewrite Eb, Es, Ej. reflexivity.
Qed.

Lemma getIdentity_run p accessToken (w : World) :
  getIdentity p accessToken w =
  (match outcome (endpointRequest p "users.identity" accessToken None) w with
   | Err err => Err err
   | Ok (_, userIdentity) =>
       if Identity_OK userIdentity then Ok userIdentity
       else Err (ErrNotOk (fmt_v_identity userIdentity))
   end,
   snd (getEndpoint (T := SlackUserIdentityResponse) p "users.identity" accessToken None w)).
Proof.
  unfold getIdentity.
  erewrite bind_run by apply getEndpoint_run.
  rewrite getEndpoint_run. cbn [snd].
  destruct (outcome _ w) as [[resp item]|err]; [|reflexivity].
  now destruct (Identity_OK item).
Qed.

Lemma getGroups_run p accessToken (w : World) :
  getGroups p accessToken w =
  (match outcome (endpointRequest p "groups.list" accessToken groupParams) w with
   | Err err => Err err
   | Ok (_, groupList) =>
       if GroupList_OK groupList then Ok groupList
       else Err (ErrNotOk (fmt_v_grouplist groupList))
   end,
   snd (getEndpoint (T := SlackGroupListResponse) p "groups.list" accessToken groupParams w)).
Proof.
  unfold getGroups.
  erewrite bind_run by apply getEndpoint_run.
  rewrite getEndpoint_run. cbn [snd].
  destruct (outcome _ w) as [[resp item]|err]; [|reflexivity].
  now destruct (GroupList_OK item).
Qed.

(** C6.  When the HTTP call comes back with status 200 and a body that
    decodes, the envelope's own ok flag decides: with the flag false the
    resolver returns the "slack response is not ok" error and no
    envelope; the resolver returns an envelope exactly when the flag is
    true, and then it is the decoded envelope itself.  This holds for
    [getIdentity] and for [getGroups]. *)
Theorem envelope_ok_flag_is_authoritative :
  (forall p accessToken (w : World) resp body (env : SlackUserIdentityResponse),
      fst (http_Do (endpointRequest p "users.identity" accessToken None) (net w)) = Ok resp ->
      Body resp = Ok body -> StatusCode resp = 200%Z -> json_Unmarshal body = Ok env ->
      (Identity_OK env = false ->
       fst (getIdentity p accessToken w) = Err (ErrNotOk (fmt_v_identity env))) /\
      (forall env', fst (getIdentity p accessToken w) = Ok env' <->
                    Identity_OK env = true /\ env' = env)) /\
  (forall p accessToken (w : World) resp body (gl : SlackGroupListResponse),
      fst (http_Do (endpointRequest p "groups.list" accessToken groupParams) (net w)) = Ok resp ->
      Body resp = Ok body -> StatusCode resp = 200%Z -> json_Unmarshal body = Ok gl ->
      (GroupList_OK gl = false ->
       fst (getGroups p accessToken w) = Err (ErrNotOk (fmt_v_grouplist gl))) /\
      (forall gl', fst (getGroups p accessToken w) = Ok gl' <->
                   GroupList_OK gl = true /\ gl' = gl)).
Proof.
  split.
  - intros p tok w resp body env Hdo Hb Hs Hj.
    rewrite getIdentity_run. cbn [fst]. unfold outcome. rewrite Hdo.
    rewrite (decodeResponse_ok _ _ _ _ Hb Hs Hj).
    destruct (Identity_OK env); split; try discriminate; try reflexivity.
    + intros env'. split.
      * intros E. inversion E. now split.
      * intros [_ ->]. reflexivity.
    + intros env'. split; [discriminate | intros [E _]; discriminate].
  - intros p tok w resp body gl Hdo Hb Hs Hj.
    rewrite getGroups_run. cbn [fst]. unfold outcome. rewrite Hdo.
    rewrite (decodeResponse_ok _ _ _ _ Hb Hs Hj).
    destruct (GroupList_OK gl); split; try discriminate; try reflexivity.
    + intros gl'. split.
      * intros E. inversion E. now split.
      * intros [_ ->]. reflexivity.
    + intros gl'. split; [discriminate | intros [E _]; discriminate].
Qed.

(** *** The paths through [GetEmailAddress] *)

Lemma hasTeamID_spec p env :
  hasTeamID p env = true <-> Item_ID (Team env) = TeamID p.
Proof. unfold hasTeamID. apply String.eqb_eq. Qed.

Lemma hasGroupID_range_spec groups groupID :
  hasGroupID_range groups groupID = true <->
  exists g, In g groups /\ Group_ID g = groupID.
Proof.
  induction groups as [|g rest IH]; cbn [hasGroupID_range].
  - split; [discriminate | intros (g & [] & _)].
  - destruct (String.eqb (Group_ID g) groupID) eqn:E.
    + apply String.eqb_eq in E. split; [|reflexivity].
      intros _. exists g. split; [now left | exact E].
    + apply String.eqb_neq in E. rewrite IH. split.
      * intros (g' & Hin & Hid). exists g'. split; [now right | exact Hid].
      * intros (g' & [-> | Hin] & Hid); [contradiction|].
        exists g'. now split.
Qed.

Lemma team_gate_closed p env :
  TeamID p <> "" -> hasTeamID p env = false ->
  negb (String.eqb (TeamID p) "") && negb (hasTeamID p env) = true.
Proof.
  intros Hne Hno. apply negb_eqb_empty in Hne. now rewrite Hne, Hno.
Qed.

Lemma team_gate_open p env :
  TeamID p = "" \/ hasTeamID p env = true ->
  negb (String.eqb (TeamID p) "") && negb (hasTeamID p env) = false.
Proof.
  intros [E | E].
  - rewrite E. reflexivity.
  - rewrite E. apply andb_false_r.
Qed.

Lemma email_branch (email : string) (w : World) :
  (if negb (String.eqb email "") then ret (email, None)
   else ret ("", @None error)) w = ((email, None), w).
Proof.
  destruct (String.eqb email "") eqn:E; cbn [negb]; [|reflexivity].
  apply String.eqb_eq in E. now subst.
Qed.

Lemma GetEmailAddress_identity_failed p s (w w1 : World) err :
  getIdentity p (AccessToken s) w = (Err err, w1) ->
  GetEmailAddress p s w = (("", None), w1).
Proof.
  intros E. unfold GetEmailAddress. now rewrite (bind_run _ _ _ _ _ E).
Qed.

Lemma GetEmailAddress_team_denied p s (w w1 : World) env :
  getIdentity p (AccessToken s) w = (Ok env, w1) ->
  TeamID p <> "" -> hasTeamID p env = false ->
  GetEmailAddress p s w =
  (("", Some teamDenial),
   {| net := net w1; calls := calls w1;
      console := console w1 ++
        [Log ("teamid: " +:+ Item_ID (Team env) +:+ " does not match with " +:+ TeamID p)] |}).
Proof.
  intros E Hne Hno. unfold GetEmailAddress.
  rewrite (bind_run _ _ _ _ _ E), (team_gate_closed _ _ Hne Hno).
  reflexivity.
Qed.

Lemma GetEmailAddress_unconstrained_group p s (w w1 : World) env :
  getIdentity p (AccessToken s) w = (Ok env, w1) ->
  TeamID p = "" \/ hasTeamID p env = true ->
  GroupID p = "" ->
  GetEmailAddress p s w = ((Item_Email (User env), None), w1).
Proof.
  intros E Hteam Hg. unfold GetEmailAddress.
  rewrite (bind_run _ _ _ _ _ E), (team_gate_open _ _ Hteam), Hg.
  cbn [String.eqb negb]. apply email_branch.
Qed.

Lemma GetEmailAddress_groups_failed p s (w w1 w2 : World) env err :
  getIdentity p (AccessToken s) w = (Ok env, w1) ->
  TeamID p = "" \/ hasTeamID p env = true ->
  GroupID p <> "" ->
  getGroups p (AccessToken s) w1 = (Err err, w2) ->
  GetEmailAddress p s w = (("", None), w2).
Proof.
  intros E Hteam Hg Eg. unfold GetEmailAddress.
  rewrite (bind_run _ _ _ _ _ E), (team_gate_open _ _ Hteam).
  apply negb_eqb_empty in Hg. rewrite Hg.
  now rewrite (bind_run _ _ _ _ _ Eg).
Qed.

Lemma GetEmailAddress_group_denied p s (w w1 w2 : World) env gl :
  getIdentity p (AccessToken s) w = (Ok env, w1) ->
  TeamID p = "" \/ hasTeamID p env = true ->
  GroupID p <> "" ->
  getGroups p (AccessToken s) w1 = (Ok gl, w2) ->
  hasGroupID p gl = false ->
  GetEmailAddress p s w =
  (("", Some groupDenial),
   {| net := net w2; calls := calls w2;
      console := console w2 ++
        [Log ("groupid: " +:+ fmt_v_groups (Groups gl) +:+ " does not match with " +:+ GroupID p)] |}).
Proof.
  intros E Hteam Hg Eg Hno. unfold GetEmailAddress.
  rewrite (bind_run _ _ _ _ _ E), (team_gate_open _ _ Hteam).
  apply negb_eqb_empty in Hg. rewrite Hg.
  rewrite (bind_run _ _ _ _ _ Eg), Hno. reflexivity.
Qed.

Lemma GetEmailAddress_group_member p s (w w1 w2 : World) env gl :
  getIdentity p (AccessToken s) w = (Ok env, w1) ->
  TeamID p = "" \/ hasTeamID p env = true ->
  GroupID p <> "" ->
  getGroups p (AccessToken s) w1 = (Ok gl, w2) ->
  hasGroupID p gl = true ->
  GetEmailAddress p s w = ((Item_Email (User env), None), w2).
Proof.
  intros E Hteam Hg Eg Hyes. unfold GetEmailAddress.
  rewrite (bind_run _ _ _ _ _ E), (team_gate_open _ _ Hteam).
  apply negb_eqb_empty in Hg. rewrite Hg.
  rewrite (bind_run _ _ _ _ _ Eg), Hyes. cbn [negb]. apply email_branch.
Qed.

Lemma team_decision p env :
  (TeamID p <> "" /\ hasTeamID p env = false) \/
  (TeamID p = "" \/ hasTeamID p env = true).
Proof.
  destruct (String.eqb_spec (TeamID p) "") as [E | E]; [right; now left|].
  destruct (hasTeamID p env); [right; now right | left; now split].
Qed.

(** C3.  Once the identity envelope is resolved, the team check of
    [GetEmailAddress] lets the request through (no team-mismatch denial)
    exactly when the configured TeamID is empty or is the envelope's
    team id; [hasTeamID] is plain string equality, and two ids that
    differ although they agree after lower-casing are a mismatch. *)
Theorem team_check_is_exact_equality :
  forall p s (w w1 : World) env,
    getIdentity p (AccessToken s) w = (Ok env, w1) ->
    (hasTeamID p env = true <-> Item_ID (Team env) = TeamID p) /\
    (snd (fst (GetEmailAddress p s w)) <> Some teamDenial <->
     TeamID p = "" \/ TeamID p = Item_ID (Team env)) /\
    (TeamID p <> "" -> TeamID p <> Item_ID (Team env) ->
     to_lower (TeamID p) = to_lower (Item_ID (Team env)) ->
     fst (GetEmailAddress p s w) = ("", Some teamDenial)).
Proof.
  intros p s w w1 env E.
  split; [apply hasTeamID_spec|].
  split.
  - destruct (team_decision p env) as [[Hne Hno] | Hopen].
    + rewrite (GetEmailAddress_team_denied _ _ _ _ _ E Hne Hno). cbn [fst snd].
      split; [intros C; now destruct C|].
      intros [C | C]; [contradiction|].
      symmetry in C. apply hasTeamID_spec in C. congruence.
    + split.
      * intros _. destruct Hopen as [C | C]; [now left|].
        right. symmetry. now apply hasTeamID_spec.
      * intros _.
        destruct (String.eqb_spec (GroupID p) "") as [Hg | Hg].
        { rewrite (GetEmailAddress_unconstrained_group _ _ _ _ _ E Hopen Hg).
          discriminate. }
        destruct (getGroups p (AccessToken s) w1) as [[gl | err] w2] eqn:Eg.
        { destruct (hasGroupID p gl) eqn:Hm.
          - rewrite (GetEmailAddress_group_member _ _ _ _ _ _ _ E Hopen Hg Eg Hm).
            discriminate.
          - rewrite (GetEmailAddress_group_denied _ _ _ _ _ _ _ E Hopen Hg Eg Hm).
            cbn [fst snd]. intros C. inversion C. }
        { rewrite (GetEmailAddress_groups_failed _ _ _ _ _ _ _ E Hopen Hg Eg).
          discriminate. }
  - intros Hne Hdiff _.
    assert (Hno : hasTeamID p env = false).
    { destruct (hasTeamID p env) eqn:C; [|reflexivity].
      apply hasTeamID_spec in C. congruence. }
    now rewrite (GetEmailAddress_team_denied _ _ _ _ _ E Hne Hno).
Qed.

(** C4.  [hasGroupID] is true exactly when some entry of the list has
    the configured GroupID as its id, hence false on the empty list; and
    past the team check, [GetEmailAddress] lets the request through the
    group check exactly when GroupID is empty (no list is fetched) or
    the fetched list has such an entry. *)
Theorem group_check_is_membership :
  forall p s (w w1 : World) env,
    getIdentity p (AccessToken s) w = (Ok env, w1) ->
    TeamID p = "" \/ hasTeamID p env = true ->
    (forall gl, hasGroupID p gl = true <->
                exists g, In g (Groups gl) /\ Group_ID g = GroupID p) /\
    (forall ok, hasGroupID p {| GroupList_OK := ok; Groups := [] |} = false) /\
    (GroupID p = "" -> fst (GetEmailAddress p s w) = (Item_Email (User env), None)) /\
    (forall gl (w2 : World),
        GroupID p <> "" ->
        getGroups p (AccessToken s) w1 = (Ok gl, w2) ->
        ((snd (fst (GetEmailAddress p s w)) <> Some groupDenial <->
          exists g, In g (Groups gl) /\ Group_ID g = GroupID p) /\
         (Groups gl = [] -> fst (GetEmailAddress p s w) = ("", Some groupDenial)))).
Proof.
  intros p s w w1 env E Hopen.
  split; [intros gl; apply hasGroupID_range_spec|].
  split; [reflexivity|].
  split.
  - intros Hg. now rewrite (GetEmailAddress_unconstrained_group _ _ _ _ _ E Hopen Hg).
  - intros gl w2 Hg Eg. split.
    + rewrite <- (hasGroupID_range_spec (Groups gl) (GroupID p)).
      fold (hasGroupID p gl).
      destruct (hasGroupID p gl) eqn:Hm.
      * rewrite (GetEmailAddress_group_member _ _ _ _ _ _ _ E Hopen Hg Eg Hm).
        split; [reflexivity | discriminate].
      * rewrite (GetEmailAddress_group_denied _ _ _ _ _ _ _ E Hopen Hg Eg Hm).
        cbn [fst snd]. split; [intros C; now destruct C | discriminate].
    + intros Hnil.
      assert (Hm : hasGroupID p gl = false) by (unfold hasGroupID; now rewrite Hnil).
      now rewrite (GetEmailAddress_group_denied _ _ _ _ _ _ _ E Hopen Hg Eg Hm).
Qed.

(** *** Network calls issued by [GetEmailAddress] *)

Lemma getIdentity_world p accessToken (w : World) :
  snd (getIdentity p accessToken w) =
  {| net := snd (http_Do (endpointRequest p "users.identity" accessToken None) (net w));
     calls := calls w ++ [endpointRequest p "users.identity" accessToken None];
     console := console w |}.
Proof. rewrite getIdentity_run, getEndpoint_run. reflexivity. Qed.

Lemma getGroups_world p accessToken (w : World) :
  snd (getGroups p accessToken w) =
  {| net := snd (http_Do (endpointRequest p "groups.list" accessToken groupParams) (net w));
     calls := calls w ++ [endpointRequest p "groups.list" accessToken groupParams];
     console := console w |}.
Proof. rewrite getGroups_run, getEndpoint_run. reflexivity. Qed.

Lemma getIdentity_calls p accessToken (w w1 : World) r :
  getIdentity p accessToken w = (r, w1) ->
  calls w1 = calls w ++ [endpointRequest p "users.identity" accessToken None].
Proof.
  intros E. replace w1 with (snd (getIdentity p accessToken w)) by now rewrite E.
  now rewrite getIdentity_world.
Qed.

Lemma getGroups_calls p accessToken (w w1 : World) r :
  getGroups p accessToken w = (r, w1) ->
  calls w1 = calls w ++ [endpointRequest p "groups.list" accessToken groupParams].
Proof.
  intros E. replace w1 with (snd (getGroups p accessToken w)) by now rewrite E.
  now rewrite getGroups_world.
Qed.

(** Slack's [getEndpoint] writes nothing to standard output or to the
    log. *)
Lemma getEndpoint_console {T} `{Unmarshal T} p endpointName accessToken params (w : World) :
  console (snd (getEndpoint (T := T) p endpointName accessToken params w)) = console w.
Proof. now rewrite getEndpoint_run. Qed.

(** C5.  With a TeamID configured and an envelope of another team,
    [GetEmailAddress] answers with the team-mismatch denial after a
    single request, the users.identity one: groups.list is not called.
    In every run the requests are the identity request alone, or the
    identity request followed by the group listing, and the latter only
    when the team check did not fail. *)
Theorem team_mismatch_skips_group_listing :
  (forall p s (w w1 : World) env,
      getIdentity p (AccessToken s) w = (Ok env, w1) ->
      TeamID p <> "" -> hasTeamID p env = false ->
      fst (GetEmailAddress p s w) = ("", Some teamDenial) /\
      calls (snd (GetEmailAddress p s w)) =
        calls w ++ [endpointRequest p "users.identity" (AccessToken s) None]) /\
  (forall p s (w : World),
      calls (snd (GetEmailAddress p s w)) =
        calls w ++ [endpointRequest p "users.identity" (AccessToken s) None] \/
      (calls (snd (GetEmailAddress p s w)) =
         calls w ++ [endpointRequest p "users.identity" (AccessToken s) None;
                     endpointRequest p "groups.list" (AccessToken s) groupParams] /\
       GroupID p <> "" /\
       exists env (w1 : World),
         getIdentity p (AccessToken s) w = (Ok env, w1) /\
         (TeamID p = "" \/ hasTeamID p env = true))).
Proof.
  split.
  - intros p s w w1 env E Hne Hno.
    rewrite (GetEmailAddress_team_denied _ _ _ _ _ E Hne Hno). cbn [fst snd calls].
    split; [reflexivity | exact (getIdentity_calls _ _ _ _ _ E)].
  - intros p s w.
    destruct (getIdentity p (AccessToken s) w) as [[env | err] w1] eqn:E.
    2:{ left. rewrite (GetEmailAddress_identity_failed _ _ _ _ _ E). cbn [snd].
        exact (getIdentity_calls _ _ _ _ _ E). }
    pose proof (getIdentity_calls _ _ _ _ _ E) as Hc1.
    destruct (team_decision p env) as [[Hne Hno] | Hopen].
    { left. rewrite (GetEmailAddress_team_denied _ _ _ _ _ E Hne Hno).
      cbn [snd calls]. exact Hc1. }
    destruct (String.eqb_spec (GroupID p) "") as [Hg | Hg].
    { left. rewrite (GetEmailAddress_unconstrained_group _ _ _ _ _ E Hopen Hg).
      cbn [snd]. exact Hc1. }
    right.
    assert (Hcalls : forall w2 r, getGroups p (AccessToken s) w1 = (r, w2) ->
              calls w2 = calls w ++
                [endpointRequest p "users.identity" (AccessToken s) None;
                 endpointRequest p "groups.list" (AccessToken s) groupParams]).
    { intros w2 r Eg. rewrite (getGroups_calls _ _ _ _ _ Eg), Hc1.
      now rewrite <- app_assoc. }
    split; [|split; [exact Hg | exists env, w1; now split]].
    destruct (getGroups p (AccessToken s) w1) as [[gl | err] w2] eqn:Eg.
    + destruct (hasGroupID p gl) eqn:Hm.
      * rewrite (GetEmailAddress_group_member _ _ _ _ _ _ _ E Hopen Hg Eg Hm).
        cbn [snd]. eapply Hcalls. reflexivity.
      * rewrite (GetEmailAddress_group_denied _ _ _ _ _ _ _ E Hopen Hg Eg Hm).
        cbn [snd calls]. eapply Hcalls. reflexivity.
    + rewrite (GetEmailAddress_groups_failed _ _ _ _ _ _ _ E Hopen Hg Eg).
      cbn [snd]. eapply Hcalls. reflexivity.
Qed.

End SlackFacts.

Section SlackFailures.
Import Slack.
Context `{Platform}.
Context `{Unmarshal SlackUserIdentityResponse}.
Context `{Unmarshal SlackGroupListResponse}.

Lemma outcome_failure (T : Type) `{Unmarshal T} (req : Request) (w : World) err :
  outcome (T := T) req w = Err err <-> FetchFailure T req w err.
Proof.
  unfold outcome, decodeResponse. split.
  - destruct (fst (http_Do req (net w))) as [resp | e] eqn:Ed.
    + destruct (Body resp) as [body | e] eqn:Eb.
      * destruct (Z.eqb_spec (StatusCode resp) 200) as [Es | Es]; cbn [negb].
        -- destruct (json_Unmarshal body) as [item | e] eqn:Ej; [discriminate|].
           intros [= <-]. eapply decode_error; eassumption.
        -- intros [= <-]. eapply status_error; eassumption.
      * intros [= <-]. eapply read_error; eassumption.
    + intros [= <-]. now apply transport_error.
  - intros [e Ed | resp e Ed Eb | resp body Ed Eb Es | resp body e Ed Eb Es Ej];
      rewrite Ed; try rewrite Eb; try reflexivity.
    + apply Z.eqb_neq in Es. now rewrite Es.
    + now rewrite Es, Ej.
Qed.

(** [getIdentity] fails when the fetch fails or the envelope is not ok. *)
Lemma getIdentity_failed p accessToken (w : World) :
  (exists err, FetchFailure SlackUserIdentityResponse
                 (endpointRequest p "users.identity" accessToken None) w err) \/
  (exists resp env,
      outcome (endpointRequest p "users.identity" accessToken None) w = Ok (resp, env) /\
      Identity_OK env = false) ->
  exists err, getIdentity p accessToken w = (Err err, snd (getIdentity p accessToken w)).
Proof.
  intros [[err F] | (resp & env & Eo & Eok)].
  - apply outcome_failure in F. exists err.
    rewrite (run_surjective (getIdentity p accessToken) w) at 1.
    f_equal. rewrite getIdentity_run. cbn [fst]. now rewrite F.
  - exists (ErrNotOk (fmt_v_identity env)).
    rewrite (run_surjective (getIdentity p accessToken) w) at 1.
    f_equal. rewrite getIdentity_run. cbn [fst]. now rewrite Eo, Eok.
Qed.

Lemma getGroups_failed p accessToken (w : World) :
  (exists err, FetchFailure SlackGroupListResponse
                 (endpointRequest p "groups.list" accessToken groupParams) w err) \/
  (exists resp gl,
      outcome (endpointRequest p "groups.list" accessToken groupParams) w = Ok (resp, gl) /\
      GroupList_OK gl = false) ->
  exists err, getGroups p accessToken w = (Err err, snd (getGroups p accessToken w)).
Proof.
  intros [[err F] | (resp & gl & Eo & Eok)].
  - apply outcome_failure in F. exists err.
    rewrite (run_surjective (getGroups p accessToken) w) at 1.
    f_equal. rewrite getGroups_run. cbn [fst]. now rewrite F.
  - exists (ErrNotOk (fmt_v_grouplist gl)).
    rewrite (run_surjective (getGroups p accessToken) w) at 1.
    f_equal. rewrite getGroups_run. cbn [fst]. now rewrite Eo, Eok.
Qed.

(** Whatever happens, the error of [GetEmailAddress] is nil or one of
    the two policy denials. *)
Lemma GetEmailAddress_errors p s (w : World) :
  snd (fst (GetEmailAddress p s w)) = None \/
  snd (fst (GetEmailAddress p s w)) = Some teamDenial \/
  snd (fst (GetEmailAddress p s w)) = Some groupDenial.
Proof.
  destruct (getIdentity p (AccessToken s) w) as [[env | err] w1] eqn:E.
  2:{ left. now rewrite (GetEmailAddress_identity_failed _ _ _ _ _ E). }
  destruct (team_decision p env) as [[Hne Hno] | Hopen].
  { right; left. now rewrite (GetEmailAddress_team_denied _ _ _ _ _ E Hne Hno). }
  destruct (String.eqb_spec (GroupID p) "") as [Hg | Hg].
  { left. now rewrite (GetEmailAddress_unconstrained_group _ _ _ _ _ E Hopen Hg). }
  destruct (getGroups p (AccessToken s) w1) as [[gl | err] w2] eqn:Eg.
  - destruct (hasGroupID p gl) eqn:Hm.
    + left. now rewrite (GetEmailAddress_group_member _ _ _ _ _ _ _ E Hopen Hg Eg Hm).
    + right; right.
      now rewrite (GetEmailAddress_group_denied _ _ _ _ _ _ _ E Hopen Hg Eg Hm).
  - left. now rewrite (GetEmailAddress_groups_failed _ _ _ _ _ _ _ E Hopen Hg Eg).
Qed.

End SlackFailures.

(* ===================================================================== *)
(** ** Repeating a call against an upstream that does not move *)
(* ===================================================================== *)

Section Steady.
Context `{Platform}.
Hypothesis still : quiescent.

Lemma steady_ret {A} (a : A) : steady (ret a).
Proof. intros w w' E. now split. Qed.

Lemma steady_emit (o : Output) : steady (emit o).
Proof. intros w w' E. now split. Qed.

Lemma steady_client_Do (req : Request) : steady (client_Do req).
Proof.
  intros w w' E. rewrite !client_Do_run. cbn [fst snd net].
  split; [now rewrite E | apply still].
Qed.

Lemma steady_bind {A B} (m : IO A) (k : A -> IO B) :
  steady m -> (forall a, steady (k a)) -> steady (bind m k).
Proof.
  intros Hm Hk w w' E. unfold bind.
  destruct (Hm w w' E) as [Hr Hn]. destruct (Hm w' w' eq_refl) as [_ Hn'].
  destruct (m w) as [a w1], (m w') as [a' w1']. cbn [fst snd] in *. subst a'.
  destruct (Hk a w1 w1') as [Hr2 Hn2]; [congruence|].
  split; [exact Hr2 | congruence].
Qed.

(** Running a steady computation a second time, in the world the first
    run left, gives the first result again. *)
Lemma steady_again {A} (m : IO A) :
  steady m -> forall w, fst (m (snd (m w))) = fst (m w).
Proof.
  intros Hm w. destruct (Hm w w eq_refl) as [_ Hn].
  now destruct (Hm (snd (m w)) w Hn).
Qed.

End Steady.

Ltac steady_step :=
  match goal with
  | |- steady (bind _ _) => apply steady_bind; [ | intros ?]
  | |- steady (ret _) => apply steady_ret
  | |- steady (emit _) => apply steady_emit
  | |- steady (client_Do _) => apply steady_client_Do; assumption
  | |- steady (match ?x with _ => _ end) => destruct x
  end.

Section SlackSteady.
Import Slack.
Context `{Platform}.
Context `{Unmarshal SlackUserIdentityResponse}.
Context `{Unmarshal SlackGroupListResponse}.
Hypothesis still : quiescent.

Lemma slack_getEndpoint_steady {T} `{Unmarshal T} p endpointName accessToken params :
  steady (getEndpoint (T := T) p endpointName accessToken params).
Proof. unfold getEndpoint. cbv zeta. repeat steady_step. Qed.

Lemma slack_GetEmailAddress_steady p s : steady (GetEmailAddress p s).
Proof.
  unfold GetEmailAddress, getIdentity, getGroups. cbv zeta.
  repeat (steady_step || apply slack_getEndpoint_steady).
Qed.

End SlackSteady.

(* ===================================================================== *)
(** ** Facts about the Spaces provider *)
(* ===================================================================== *)

Section SpacesFacts.
Import Spaces.
Context `{Platform}.
Context `{Unmarshal SpacesUserIdentityResponse}.
Context `{Unmarshal SpacesSpaceResponse}.

Lemma spaces_getEndpoint_run {T} `{Unmarshal T} p endpointName accessToken params (w : World) :
  getEndpoint (T := T) p endpointName accessToken params w =
  (outcome (endpointRequest p endpointName accessToken params) w,
   {| net := snd (http_Do (endpointRequest p endpointName accessToken params) (net w));
      calls := calls w ++ [endpointRequest p endpointName accessToken params];
      console := console w ++ Stdout accessToken ::
        printedResponse
          (fst (http_Do (endpointRequest p endpointName accessToken params) (net w))) |}).
Proof.
  unfold getEndpoint, outcome. cbv zeta.
  unfold bind at 1. cbn [emit].
  erewrite bind_run by apply client_Do_run.
  cbn [fst snd net calls console].
  destruct (fst (http_Do _ (net w))) as [resp | err]; cbn [printedResponse].
  - unfold bind, emit, ret. cbn. now rewrite <- app_assoc.
  - unfold ret. now rewrite app_nil_r || reflexivity.
Qed.

Lemma spaces_GetEmailAddress_identity_failed p s (w w1 : World) err :
  getEndpoint (T := SpacesUserIdentityResponse) p (APIUser p) (AccessToken s) None w
    = (Err err, w1) ->
  GetEmailAddress p s w = (("", Some err), w1).
Proof.
  intros E. unfold GetEmailAddress. now rewrite (bind_run _ _ _ _ _ E).
Qed.

Lemma spaces_GetEmailAddress_space_fetched p s (w w1 w2 : World) resp1 profile resp2 info :
  getEndpoint (T := SpacesUserIdentityResponse) p (APIUser p) (AccessToken s) None w
    = (Ok (resp1, profile), w1) ->
  SpaceID p <> "" ->
  getEndpoint (T := SpacesSpaceResponse) p (fmt_Sprintf (APISpace p) (SpaceID p))
    (AccessToken s) None w1 = (Ok (resp2, info), w2) ->
  GetEmailAddress p s w = ((EMail profile, None), w2).
Proof.
  intros E Hs E2. unfold GetEmailAddress.
  rewrite (bind_run _ _ _ _ _ E). apply negb_eqb_empty in Hs. rewrite Hs.
  now rewrite (bind_run _ _ _ _ _ E2).
Qed.

Lemma spaces_GetEmailAddress_space_failed p s (w w1 w2 : World) resp1 profile err :
  getEndpoint (T := SpacesUserIdentityResponse) p (APIUser p) (AccessToken s) None w
    = (Ok (resp1, profile), w1) ->
  SpaceID p <> "" ->
  getEndpoint (T := SpacesSpaceResponse) p (fmt_Sprintf (APISpace p) (SpaceID p))
    (AccessToken s) None w1 = (Err err, w2) ->
  GetEmailAddress p s w = (("", Some err), w2).
Proof.
  intros E Hs E2. unfold GetEmailAddress.
  rewrite (bind_run _ _ _ _ _ E). apply negb_eqb_empty in Hs. rewrite Hs.
  now rewrite (bind_run _ _ _ _ _ E2).
Qed.

Lemma spaces_getEndpoint_steady {T} `{Unmarshal T} p endpointName accessToken params :
  quiescent -> steady (getEndpoint (T := T) p endpointName accessToken params).
Proof. intros still. unfold getEndpoint. cbv zeta. repeat steady_step. Qed.

Lemma spaces_GetEmailAddress_steady p s : quiescent -> steady (GetEmailAddress p s).
Proof.
  intros still. unfold GetEmailAddress.
  repeat (steady_step || apply spaces_getEndpoint_steady; try assumption).
Qed.

(** C2.  Spaces' [getEndpoint] prints the access token: whatever the
    provider, endpoint, token and parameters, the console after the call
    is the console before it followed by the token on a line of its own
    (and then by the response, when one came back). *)
Theorem spaces_getEndpoint_prints_access_token :
  forall (T : Type) (U : Unmarshal T) p endpointName accessToken params (w : World),
    exists rest,
      console (snd (getEndpoint (T := T) p endpointName accessToken params w)) =
      console w ++ Stdout accessToken :: rest.
Proof.
  intros T U p endpointName accessToken params w.
  rewrite spaces_getEndpoint_run. cbn [snd console]. eauto.
Qed.

(** C9.  With a SpaceID configured, [GetEmailAddress] returns the
    profile's email as soon as the space endpoint answers 200 with a body
    that decodes: the decoded space record [info] is not looked at, so
    its id may be any space's. *)
Theorem spaces_space_id_is_never_compared :
  forall p s (w w1 : World) resp1 profile resp2 body (info : SpacesSpaceResponse),
    SpaceID p <> "" ->
    getEndpoint (T := SpacesUserIdentityResponse) p (APIUser p) (AccessToken s) None w
      = (Ok (resp1, profile), w1) ->
    fst (http_Do (endpointRequest p (fmt_Sprintf (APISpace p) (SpaceID p))
                    (AccessToken s) None) (net w1)) = Ok resp2 ->
    Body resp2 = Ok body -> StatusCode resp2 = 200%Z -> json_Unmarshal body = Ok info ->
    fst (GetEmailAddress p s w) = (EMail profile, None).
Proof.
  intros p s w w1 resp1 profile resp2 body info Hs E Hd Hb Hc Hj.
  erewrite spaces_GetEmailAddress_space_fetched; [reflexivity | exact E | exact Hs |].
  rewrite spaces_getEndpoint_run. unfold outcome. rewrite Hd.
  rewrite (decodeResponse_ok _ _ _ _ Hb Hc Hj). reflexivity.
Qed.

End SpacesFacts.

(* ===================================================================== *)
(** ** The facade, across providers *)
(* ===================================================================== *)

Section Facade.
Context `{Platform}.
Context `{Unmarshal Slack.SlackUserIdentityResponse}.
Context `{Unmarshal Slack.SlackGroupListResponse}.
Context `{Unmarshal Spaces.SpacesUserIdentityResponse}.
Context `{Unmarshal Spaces.SpacesSpaceResponse}.

(** C1 (amended).  In the Slack provider a failed identity resolution
    (transport error, failed read, status other than 200, body that does
    not decode, envelope not ok) makes [GetEmailAddress] return the empty
    string with a nil error; so does, once the identity is resolved and
    the team check has not failed, a failed group fetch when a GroupID
    is configured; and the error [GetEmailAddress] returns is always nil
    or one of the two policy denials, never a fetch error.  The Spaces
    provider returns the empty string together with the fetch error of
    the call that failed: the profile fetch, or, once the profile is
    fetched and a SpaceID is configured, the space fetch. *)
Theorem slack_swallows_fetch_errors_spaces_returns_them :
  (forall p s (w : World),
      (exists err, FetchFailure Slack.SlackUserIdentityResponse
                     (Slack.endpointRequest p "users.identity" (AccessToken s) None) w err) \/
      (exists resp env,
          outcome (Slack.endpointRequest p "users.identity" (AccessToken s) None) w
            = Ok (resp, env) /\
          Slack.Identity_OK env = false) ->
      fst (Slack.GetEmailAddress p s w) = ("", None)) /\
  (forall p s (w w1 : World) env,
      Slack.getIdentity p (AccessToken s) w = (Ok env, w1) ->
      Slack.TeamID p = "" \/ Slack.hasTeamID p env = true ->
      Slack.GroupID p <> "" ->
      (exists err, FetchFailure Slack.SlackGroupListResponse
                     (Slack.endpointRequest p "groups.list" (AccessToken s) Slack.groupParams)
                     w1 err) \/
      (exists resp gl,
          outcome (Slack.endpointRequest p "groups.list" (AccessToken s) Slack.groupParams) w1
            = Ok (resp, gl) /\
          Slack.GroupList_OK gl = false) ->
      fst (Slack.GetEmailAddress p s w) = ("", None)) /\
  (forall p s (w : World),
      snd (fst (Slack.GetEmailAddress p s w)) = None \/
      snd (fst (Slack.GetEmailAddress p s w)) = Some teamDenial \/
      snd (fst (Slack.GetEmailAddress p s w)) = Some groupDenial) /\
  (forall p s (w : World) err,
      FetchFailure Spaces.SpacesUserIdentityResponse
        (Spaces.endpointRequest p (Spaces.APIUser p) (AccessToken s) None) w err ->
      fst (Spaces.GetEmailAddress p s w) = ("", Some err)) /\
  (forall p s (w w1 : World) resp1 profile err,
      Spaces.getEndpoint (T := Spaces.SpacesUserIdentityResponse) p (Spaces.APIUser p)
        (AccessToken s) None w = (Ok (resp1, profile), w1) ->
      Spaces.SpaceID p <> "" ->
      FetchFailure Spaces.SpacesSpaceResponse
        (Spaces.endpointRequest p (fmt_Sprintf (Spaces.APISpace p) (Spaces.SpaceID p))
           (AccessToken s) None) w1 err ->
      fst (Spaces.GetEmailAddress p s w) = ("", Some err)).
Proof.
  split; [|split; [|split; [|split]]].
  - intros p s w Hfail.
    destruct (getIdentity_failed p (AccessToken s) w Hfail) as [err E].
    now rewrite (GetEmailAddress_identity_failed _ _ _ _ _ E).
  - intros p s w w1 env E Hopen Hg Hfail.
    destruct (getGroups_failed p (AccessToken s) w1 Hfail) as [err Eg].
    now rewrite (GetEmailAddress_groups_failed _ _ _ _ _ _ _ E Hopen Hg Eg).
  - intros p s w. apply GetEmailAddress_errors.
  - intros p s w err F. apply outcome_failure in F.
    erewrite spaces_GetEmailAddress_identity_failed; [reflexivity|].
    rewrite spaces_getEndpoint_run, F. reflexivity.
  - intros p s w w1 resp1 profile err E Hs F. apply outcome_failure in F.
    erewrite spaces_GetEmailAddress_space_failed; [reflexivity | exact E | exact Hs |].
    rewrite spaces_getEndpoint_run, F. reflexivity.
Qed.

(** C10.  Against an upstream that keeps its state across requests,
    calling [GetEmailAddress] a second time with the same session, in
    the world the first call left behind, returns what the first call
    returned, for the Slack provider and for the Spaces provider. *)
Theorem GetEmailAddress_twice_same_result :
  quiescent ->
  (forall p s (w : World),
      fst (Slack.GetEmailAddress p s (snd (Slack.GetEmailAddress p s w))) =
      fst (Slack.GetEmailAddress p s w)) /\
  (forall p s (w : World),
      fst (Spaces.GetEmailAddress p s (snd (Spaces.GetEmailAddress p s w))) =
      fst (Spaces.GetEmailAddress p s w)).
Proof.
  intros still. split; intros p s w.
  - apply steady_again. now apply slack_GetEmailAddress_steady.
  - apply steady_again. now apply spaces_GetEmailAddress_steady.
Qed.

End Facade.

(* ===================================================================== *)
(** ** The scope-escalation check *)
(* ===================================================================== *)

Section SecondAttemptFacts.
Import Slack.
Context `{Platform}.
Context `{Unmarshal SlackAuthTestResponse}.

Lemma earlier_SecondAttempt_run p (w : World) :
  SlackEarlier.SecondAttempt p w =
  ((if strings_Contains (Scope (providerData p)) "groups:read" || String.eqb (GroupID p) ""
    then (false, p) else (true, SlackEarlier.setScope p "groups:read")),
   {| net := net w; calls := calls w; console := console w ++ [Stdout (GroupID p)] |}).
Proof.
  unfold SlackEarlier.SecondAttempt, bind, emit, ret.
  now destruct (strings_Contains _ _ || String.eqb _ _).
Qed.

Lemma earlier_SecondAttempt_true p (w : World) :
  fst (fst (SlackEarlier.SecondAttempt p w)) = true <->
  GroupID p <> "" /\ strings_Contains (Scope (providerData p)) "groups:read" = false.
Proof.
  rewrite earlier_SecondAttempt_run. cbn [fst].
  destruct (strings_Contains _ _) eqn:Ec; cbn [orb fst].
  - split; [discriminate | intros [_ C]; discriminate].
  - destruct (String.eqb_spec (GroupID p) "") as [E | E]; cbn [fst].
    + split; [discriminate | intros [C _]; contradiction].
    + split; [now split | reflexivity].
Qed.

Lemma slack_SecondAttempt_run p session (w : World) :
  SecondAttempt p session w =
  (match outcome (T := SlackAuthTestResponse)
           (endpointRequest p "auth.test" (AccessToken session) None) w with
   | Err _ => false
   | Ok (resp, _) =>
       negb (strings_Contains (header_Get (Header resp) "X-Oauth-Scopes") "groups"
             || String.eqb (GroupID p) "")
   end,
   snd (getEndpoint (T := SlackAuthTestResponse) p "auth.test" (AccessToken session) None w)).
Proof.
  unfold SecondAttempt.
  erewrite bind_run by apply getEndpoint_run.
  rewrite getEndpoint_run. cbn [snd].
  destruct (outcome _ w) as [[resp item] | err]; [|reflexivity].
  now destruct (strings_Contains _ _ || String.eqb _ _).
Qed.

(** C7 (amended).  The earlier provider's [SecondAttempt] returns true
    exactly when a GroupID is configured and the configured Scope does
    not contain "groups:read", and a call made right after any call
    returns false.  The [SecondAttempt] of slack.go returns true, at
    every call, exactly when a GroupID is configured, that call's
    auth.test probe succeeds and its X-Oauth-Scopes header does not
    contain "groups"; it returns false when the probe fails. *)
Theorem SecondAttempt_escalation_condition :
  (forall p (w : World),
      fst (fst (SlackEarlier.SecondAttempt p w)) = true <->
      GroupID p <> "" /\ strings_Contains (Scope (providerData p)) "groups:read" = false) /\
  (forall p (w : World),
      fst (fst (SlackEarlier.SecondAttempt
                  (snd (fst (SlackEarlier.SecondAttempt p w)))
                  (snd (SlackEarlier.SecondAttempt p w)))) = false) /\
  (forall p session (w : World),
      fst (SecondAttempt p session w) = true <->
      GroupID p <> "" /\
      exists resp item,
        outcome (T := SlackAuthTestResponse)
          (endpointRequest p "auth.test" (AccessToken session) None) w = Ok (resp, item) /\
        strings_Contains (header_Get (Header resp) "X-Oauth-Scopes") "groups" = false) /\
  (forall p session (w : World) err,
      FetchFailure SlackAuthTestResponse
        (endpointRequest p "auth.test" (AccessToken session) None) w err ->
      fst (SecondAttempt p session w) = false).
Proof.
  split; [exact earlier_SecondAttempt_true|]. split; [|split].
  - intros p w.
    destruct (fst (fst (SlackEarlier.SecondAttempt
                (snd (fst (SlackEarlier.SecondAttempt p w)))
                (snd (SlackEarlier.SecondAttempt p w))))) eqn:E2; [|reflexivity].
    apply earlier_SecondAttempt_true in E2. destruct E2 as [Hg Hc].
    rewrite earlier_SecondAttempt_run in Hg, Hc. cbn [fst snd] in Hg, Hc.
    destruct (strings_Contains (Scope (providerData p)) "groups:read") eqn:Ec;
      cbn [orb fst snd] in Hg, Hc; [congruence|].
    destruct (String.eqb_spec (GroupID p) "") as [E | E]; cbn [fst snd] in Hg, Hc.
    + contradiction.
    + cbn in Hc. discriminate.
  - intros p session w. rewrite slack_SecondAttempt_run. cbn [fst].
    destruct (outcome _ w) as [[resp item] | err].
    + destruct (strings_Contains _ _) eqn:Ec; cbn [orb negb].
      * split; [discriminate|].
        intros (_ & resp' & item' & [= <- <-] & C). congruence.
      * destruct (String.eqb_spec (GroupID p) "") as [E | E]; cbn [negb].
        -- split; [discriminate | intros [C _]; contradiction].
        -- split; [|reflexivity]. intros _. split; [exact E|].
           exists resp, item. now split.
    + split; [discriminate | intros (_ & resp & item & C & _); discriminate].
  - intros p session w err F. apply outcome_failure in F.
    rewrite slack_SecondAttempt_run. cbn [fst]. now rewrite F.
Qed.

(** C8.  Whenever the earlier provider's [SecondAttempt] asks for a
    retry, the provider it leaves behind has "groups:read" as its Scope,
    which is not the Scope it was configured with; TeamID and GroupID
    are kept. *)
Theorem earlier_SecondAttempt_overwrites_Scope :
  forall p (w : World),
    fst (fst (SlackEarlier.SecondAttempt p w)) = true ->
    let p' := snd (fst (SlackEarlier.SecondAttempt p w)) in
    Scope (providerData p') = "groups:read" /\
    Scope (providerData p') <> Scope (providerData p) /\
    TeamID p' = TeamID p /\ GroupID p' = GroupID p.
Proof.
  intros p w Ht. apply earlier_SecondAttempt_true in Ht. destruct Ht as [Hg Hc].
  rewrite earlier_SecondAttempt_run. cbn [fst snd]. rewrite Hc.
  apply negb_eqb_empty in Hg. apply negb_true_iff in Hg. rewrite Hg. cbn.
  repeat split. intros C. rewrite <- C in Hc. discriminate.
Qed.

End SecondAttemptFacts.

(* ===================================================================== *)
(** ** Concrete runs on the canned platform *)
(* ===================================================================== *)

Section Runs.
Import Canned.
#[local] Existing Instances platform decodeIdentity decodeGroups decodeAuthTest
  decodeProfile decodeSpace.

(** The identity endpoint answers 200 with an envelope that is not ok:
    [getIdentity] returns the error. *)
Lemma envelope_ok_flag_is_authoritative_run :
  fst (Slack.getIdentity (slack "" "") "xoxp-secret" (world slackRejects)) =
    Err (ErrNotOk "{false {  } {  }}") /\
  fst (Slack.getGroups (slack "" "G9") "xoxp-secret" (world slackUp)) =
    Ok {| Slack.GroupList_OK := true;
          Slack.Groups := [Slack.mkSlackGroupItem "G1" "general";
                           Slack.mkSlackGroupItem "G9" "ops"] |}.
Proof.
  split.
  - refine (proj1 (proj1 envelope_ok_flag_is_authoritative
                     (slack "" "") "xoxp-secret" (world slackRejects)
                     (ok200 ∅ "not ok") "not ok" rejected _ _ _ _) _);
      reflexivity.
  - refine (proj2 (proj2 (proj2 envelope_ok_flag_is_authoritative
                     (slack "" "G9") "xoxp-secret" (world slackUp)
                     (ok200 ∅ "G1 G9") "G1 G9" _ _ _ _ _) _) _).
    + reflexivity.
    + reflexivity.
    + reflexivity.
    + reflexivity.
    + split; reflexivity.
Defined.

Lemma identity_of_alice team group :
  Slack.getIdentity (slack team group) (AccessToken session) (world slackUp) =
  (Ok alice, afterIdentity (slack team group)).
Proof.
  rewrite (run_surjective (Slack.getIdentity _ (AccessToken session)) (world slackUp)).
  reflexivity.
Defined.

(** TeamID "t1" against alice's team "T1": the ids agree up to case and
    the request is denied. *)
Lemma team_check_is_exact_equality_run :
  to_lower "t1" = to_lower "T1" /\
  fst (Slack.GetEmailAddress (slack "t1" "") session (world slackUp)) =
    ("", Some teamDenial).
Proof.
  split; [reflexivity|].
  apply (proj2 (proj2 (team_check_is_exact_equality (slack "t1" "") session
                         (world slackUp) _ alice (identity_of_alice _ _)))).
  - discriminate.
  - discriminate.
  - reflexivity.
Defined.

(** TeamID "T1", GroupID "G9" and a listing with G1 and G9: no group
    denial. *)
Lemma group_check_is_membership_run :
  snd (fst (Slack.GetEmailAddress (slack "T1" "G9") session (world slackUp)))
    <> Some groupDenial.
Proof.
  pose proof (group_check_is_membership (slack "T1" "G9") session (world slackUp)
                _ alice (identity_of_alice _ _) (or_intror eq_refl)) as (_ & _ & _ & Hgl).
  refine (proj2 (proj1 (Hgl _ _ _ (run_surjective _ _))) _).
  - discriminate.
  - exists (Slack.mkSlackGroupItem "G9" "ops"). split; [right; left|]; reflexivity.
Defined.

(** Scenario B: TeamID "T2" against team "T1", GroupID configured: team
    denial after the identity request alone. *)
Lemma team_mismatch_skips_group_listing_run :
  fst (Slack.GetEmailAddress (slack "T2" "G9") session (world slackUp)) =
    ("", Some teamDenial) /\
  map (fun r => Path (Target r))
      (calls (snd (Slack.GetEmailAddress (slack "T2" "G9") session (world slackUp)))) =
    ["/api/users.identity"].
Proof.
  destruct (proj1 team_mismatch_skips_group_listing (slack "T2" "G9") session
              (world slackUp) _ alice (identity_of_alice _ _)) as [Hr Hc].
  - discriminate.
  - reflexivity.
  - split; [exact Hr|]. rewrite Hc. reflexivity.
Defined.

(** Scenario D for Slack, and the group listing answering 500 after a
    passed team check: empty string, nil error.  For Spaces with SpaceID
    "S9", the profile is fetched and the space endpoint refuses the
    connection: empty string and that error. *)
Lemma slack_swallows_fetch_errors_run :
  fst (Slack.GetEmailAddress (slack "" "") session (world slackDown)) = ("", None) /\
  fst (Slack.GetEmailAddress (slack "T1" "G9") session (world slackGroupsDown)) = ("", None) /\
  fst (Spaces.GetEmailAddress (spaces "S9") session (world spacesUp)) =
    ("", Some (ErrDo "connection refused")).
Proof.
  destruct slack_swallows_fetch_errors_spaces_returns_them as (Hid & Hgr & _ & _ & Hsp).
  split; [|split].
  - apply Hid. left. eexists.
    eapply (status_error _ _ _ (status 500 "oops") "oops"); [reflexivity | reflexivity | discriminate].
  - eapply (Hgr (slack "T1" "G9") session (world slackGroupsDown) _ alice).
    + apply run_surjective.
    + right. reflexivity.
    + discriminate.
    + left. eexists.
      eapply (status_error _ _ _ (status 500 "oops") "oops"); [reflexivity | reflexivity | discriminate].
  - refine (Hsp (spaces "S9") session (world spacesUp) _
              (ok200 ∅ "alice") (Spaces.mkSpacesUserIdentityResponse "u1" "a@x.com") _
              (run_surjective _ _) _ _).
    + discriminate.
    + apply transport_error. reflexivity.
Defined.

(** The Spaces profile endpoint answers 500: [GetEmailAddress] returns
    the status error to its caller. *)
Lemma spaces_GetEmailAddress_returns_fetch_error :
  outcome (T := Spaces.SpacesUserIdentityResponse)
    (Spaces.endpointRequest (spaces "") (Spaces.APIUser (spaces "")) (AccessToken session) None)
    (world spacesDown)
    = Err (ErrStatus 500 (mkURL "https" "api.spaces.de" "/v1/users/me/profile" "") "oops") /\
  fst (Spaces.GetEmailAddress (spaces "") session (world spacesDown)) =
    ("", Some (ErrStatus 500 (mkURL "https" "api.spaces.de" "/v1/users/me/profile" "") "oops")) /\
  fst (Spaces.GetEmailAddress (spaces "") session (world spacesDown)) <> ("", None).
Proof. split; [|split]; [reflexivity | reflexivity | discriminate]. Qed.

(** SpaceID "S1" configured, the space endpoint describes "S2": the
    email is returned. *)
Lemma spaces_space_id_is_never_compared_run :
  Spaces.Space_ID (Spaces.mkSpacesSpaceResponse "S2") <> Spaces.SpaceID (spaces "S1") /\
  fst (Spaces.GetEmailAddress (spaces "S1") session (world spacesUp)) = ("a@x.com", None).
Proof.
  split; [discriminate|].
  refine (spaces_space_id_is_never_compared (spaces "S1") session (world spacesUp) _
            (ok200 ∅ "alice") (Spaces.mkSpacesUserIdentityResponse "u1" "a@x.com")
            (ok200 ∅ "space S2") "space S2" (Spaces.mkSpacesSpaceResponse "S2")
            _ (run_surjective _ _) _ _ _ _).
  - discriminate.
  - reflexivity.
  - reflexivity.
  - reflexivity.
  - reflexivity.
Defined.

Lemma canned_quiescent : quiescent.
Proof. intros req u. reflexivity. Defined.

(** Two calls in a row for a member of T1 and G9. *)
Lemma GetEmailAddress_twice_same_result_run :
  fst (Slack.GetEmailAddress (slack "T1" "G9") session
         (snd (Slack.GetEmailAddress (slack "T1" "G9") session (world slackUp)))) =
  fst (Slack.GetEmailAddress (slack "T1" "G9") session (world slackUp)).
Proof.
  exact (proj1 (GetEmailAddress_twice_same_result canned_quiescent)
           (slack "T1" "G9") session (world slackUp)).
Defined.

(** GroupID configured, the probe keeps reporting identity scopes only:
    slack.go's [SecondAttempt] asks for a retry, and asks again when it
    is called a second time right after. *)
Lemma slack_SecondAttempt_asks_again :
  Slack.GroupID (slack "T1" "G9") <> "" /\
  fst (Slack.SecondAttempt (slack "T1" "G9") session (world slackUp)) = true /\
  fst (Slack.SecondAttempt (slack "T1" "G9") session
         (snd (Slack.SecondAttempt (slack "T1" "G9") session (world slackUp)))) = true.
Proof. split; [|split]; [discriminate | reflexivity | reflexivity]. Qed.

Lemma SecondAttempt_escalation_condition_run :
  fst (fst (SlackEarlier.SecondAttempt (slack "T1" "G9") (world slackUp))) = true /\
  fst (Slack.SecondAttempt (slack "T1" "G9") session (world slackUp)) = true /\
  fst (Slack.SecondAttempt (slack "T1" "G9") session (world slackDown)) = false.
Proof.
  destruct SecondAttempt_escalation_condition as (He & _ & Hs & Hfail).
  split; [|split].
  - apply He. split; [discriminate | reflexivity].
  - apply Hs. split; [discriminate|].
    exists (ok200 {[ "X-Oauth-Scopes" := ["identity.basic,identity.email"] ]} "ok"),
           (Slack.mkSlackAuthTestResponse true).
    split; reflexivity.
  - eapply Hfail. apply transport_error. reflexivity.
Defined.

(** The earlier provider configured with GroupID "G9" and the default
    identity scopes: one [SecondAttempt] and the provider's Scope is
    "groups:read". *)
Lemma earlier_SecondAttempt_overwrites_Scope_run :
  Scope (Slack.providerData (slack "T1" "G9")) = "identity.basic identity.email" /\
  Scope (Slack.providerData
           (snd (fst (SlackEarlier.SecondAttempt (slack "T1" "G9") (world slackUp)))))
    = "groups:read".
Proof.
  split; [reflexivity|].
  apply (earlier_SecondAttempt_overwrites_Scope (slack "T1" "G9") (world slackUp)).
  reflexivity.
Defined.

End Runs.

(* ===================================================================== *)
(** ** Further properties of slack.go *)
(* ===================================================================== *)

Section EndpointOutcome.
Context `{Platform}.

Lemma outcome_success (T : Type) `{Unmarshal T} (req : Request) (w : World) resp (item : T) :
  outcome (T := T) req w = Ok (resp, item) <->
  exists body,
    fst (http_Do req (net w)) = Ok resp /\ Body resp = Ok body /\
    StatusCode resp = 200%Z /\ json_Unmarshal body = Ok item.
Proof.
  unfold outcome, decodeResponse. split.
  - destruct (fst (http_Do req (net w))) as [resp' | e]; [|discriminate].
    destruct (Body resp') as [body | e] eqn:Eb; [|discriminate].
    destruct (Z.eqb_spec (StatusCode resp') 200) as [Es | Es]; cbn [negb]; [|discriminate].
    destruct (json_Unmarshal body) as [item' | e] eqn:Ej; [|discriminate].
    intros [= <- <-]. exists body. now repeat split.
  - intros (body & -> & -> & -> & ->). reflexivity.
Qed.

(** X1.  Either [getEndpoint] returns a response and an item exactly
    when the upstream answered, the body could be read, the status is
    200 and the body decodes; the response it returns is the upstream's.
    A status other than 200 is reported as the status error carrying the
    code, the endpoint and the body, whether or not the body would have
    decoded. *)
Theorem getEndpoint_succeeds_on_200_and_decodable_body :
  forall (T : Type) (U : Unmarshal T) endpointName accessToken params (w : World),
    (forall p resp (item : T),
        fst (Slack.getEndpoint (T := T) p endpointName accessToken params w) = Ok (resp, item) <->
        exists body,
          fst (http_Do (Slack.endpointRequest p endpointName accessToken params) (net w))
            = Ok resp /\
          Body resp = Ok body /\ StatusCode resp = 200%Z /\ json_Unmarshal body = Ok item) /\
    (forall p resp (item : T),
        fst (Spaces.getEndpoint (T := T) p endpointName accessToken params w) = Ok (resp, item) <->
        exists body,
          fst (http_Do (Spaces.endpointRequest p endpointName accessToken params) (net w))
            = Ok resp /\
          Body resp = Ok body /\ StatusCode resp = 200%Z /\ json_Unmarshal body = Ok item) /\
    (forall p resp body,
        fst (http_Do (Slack.endpointRequest p endpointName accessToken params) (net w))
          = Ok resp ->
        Body resp = Ok body -> StatusCode resp <> 200%Z ->
        fst (Slack.getEndpoint (T := T) p endpointName accessToken params w) =
        Err (ErrStatus (StatusCode resp)
               (Target (Slack.endpointRequest p endpointName accessToken params)) body)) /\
    (forall p resp body,
        fst (http_Do (Spaces.endpointRequest p endpointName accessToken params) (net w))
          = Ok resp ->
        Body resp = Ok body -> StatusCode resp <> 200%Z ->
        fst (Spaces.getEndpoint (T := T) p endpointName accessToken params w) =
        Err (ErrStatus (StatusCode resp)
               (Target (Spaces.endpointRequest p endpointName accessToken params)) body)).
Proof.
  intros T U endpointName accessToken params w.
  split; [|split; [|split]].
  - intros p resp item. rewrite getEndpoint_run. apply outcome_success.
  - intros p resp item. rewrite spaces_getEndpoint_run. apply outcome_success.
  - intros p resp body Hd Hb Hs. rewrite getEndpoint_run. cbn [fst].
    apply outcome_failure. eapply status_error; eassumption.
  - intros p resp body Hd Hb Hs. rewrite spaces_getEndpoint_run. cbn [fst].
    apply outcome_failure. eapply status_error; eassumption.
Qed.

End EndpointOutcome.

Section SlackPolicy.
Import Slack.
Context `{Platform}.
Context `{Unmarshal SlackUserIdentityResponse}.
Context `{Unmarshal SlackGroupListResponse}.
Context `{Unmarshal SlackAuthTestResponse}.

Lemma team_open_eq p env :
  TeamID p = "" \/ hasTeamID p env = true <->
  TeamID p = "" \/ Item_ID (Team env) = TeamID p.
Proof. now rewrite hasTeamID_spec. Qed.

(** X2.  [GetEmailAddress] is fail-closed: it returns a non-empty
    string only as the email of a resolved identity whose team passes
    the TeamID constraint and, when a GroupID is configured, after a
    group listing that was fetched and contains the GroupID; and in
    that situation it does return it. *)
Theorem slack_email_only_after_every_check :
  forall p s (w : World) email,
    email <> "" ->
    (fst (fst (GetEmailAddress p s w)) = email <->
     exists env (w1 : World),
       getIdentity p (AccessToken s) w = (Ok env, w1) /\
       Item_Email (User env) = email /\
       (TeamID p = "" \/ Item_ID (Team env) = TeamID p) /\
       (GroupID p = "" \/
        exists gl (w2 : World),
          getGroups p (AccessToken s) w1 = (Ok gl, w2) /\
          exists g, In g (Groups gl) /\ Group_ID g = GroupID p)).
Proof.
  intros p s w email Hne.
  destruct (getIdentity p (AccessToken s) w) as [[env | err] w1] eqn:E.
  2:{ rewrite (GetEmailAddress_identity_failed _ _ _ _ _ E). cbn [fst].
      split; [intros C; now subst | intros (? & ? & C & _); discriminate]. }
  destruct (team_decision p env) as [[Htn Hno] | Hopen].
  { rewrite (GetEmailAddress_team_denied _ _ _ _ _ E Htn Hno). cbn [fst].
    split; [intros C; now subst|].
    intros (env' & w1' & [= <- <-] & _ & [Ht | Ht] & _); [contradiction|].
    apply hasTeamID_spec in Ht. congruence. }
  destruct (String.eqb_spec (GroupID p) "") as [Hg | Hg].
  { rewrite (GetEmailAddress_unconstrained_group _ _ _ _ _ E Hopen Hg). cbn [fst].
    split.
    - intros <-. exists env, w1. repeat split; [now apply team_open_eq | now left].
    - now intros (env' & w1' & [= <- <-] & He & _). }
  destruct (getGroups p (AccessToken s) w1) as [[gl | err] w2] eqn:Eg.
  - destruct (hasGroupID p gl) eqn:Hm.
    + rewrite (GetEmailAddress_group_member _ _ _ _ _ _ _ E Hopen Hg Eg Hm). cbn [fst].
      split.
      * intros <-. exists env, w1. repeat split; [now apply team_open_eq|].
        right. exists gl, w2. split; [exact Eg|]. now apply hasGroupID_range_spec.
      * now intros (env' & w1' & [= <- <-] & He & _).
    + rewrite (GetEmailAddress_group_denied _ _ _ _ _ _ _ E Hopen Hg Eg Hm). cbn [fst].
      split; [intros C; now subst|].
      intros (env' & w1' & [= <- <-] & _ & _ & [C | (gl' & w2' & Eg' & Hex)]);
        [contradiction|].
      rewrite Eg in Eg'. injection Eg' as <- <-.
      apply hasGroupID_range_spec in Hex. unfold hasGroupID in Hm. congruence.
  - rewrite (GetEmailAddress_groups_failed _ _ _ _ _ _ _ E Hopen Hg Eg). cbn [fst].
    split; [intros C; now subst|].
    intros (env' & w1' & [= <- <-] & _ & _ & [C | (gl' & w2' & Eg' & _)]);
      [contradiction|].
    rewrite Eg in Eg'. discriminate.
Qed.

(** The full table of [GetEmailAddress]: result and console, by path. *)
Lemma GetEmailAddress_paths p s (w : World) :
  let r := GetEmailAddress p s w in
  (snd (fst r) = None /\ console (snd r) = console w) \/
  (exists env, fst r = ("", Some teamDenial) /\
     console (snd r) = console w ++
       [Log ("teamid: " +:+ Item_ID (Team env) +:+ " does not match with " +:+ TeamID p)]) \/
  (exists gl, fst r = ("", Some groupDenial) /\
     console (snd r) = console w ++
       [Log ("groupid: " +:+ fmt_v_groups (Groups gl) +:+ " does not match with " +:+ GroupID p)]).
Proof.
  cbv zeta.
  destruct (getIdentity p (AccessToken s) w) as [[env | err] w1] eqn:E;
    assert (Hc1 : console w1 = console w)
      by (replace w1 with (snd (getIdentity p (AccessToken s) w)) by (now rewrite E);
          now rewrite getIdentity_world).
  2:{ left. now rewrite (GetEmailAddress_identity_failed _ _ _ _ _ E). }
  destruct (team_decision p env) as [[Htn Hno] | Hopen].
  { right; left. exists env.
    rewrite (GetEmailAddress_team_denied _ _ _ _ _ E Htn Hno). cbn [fst snd console].
    now rewrite Hc1. }
  destruct (String.eqb_spec (GroupID p) "") as [Hg | Hg].
  { left. now rewrite (GetEmailAddress_unconstrained_group _ _ _ _ _ E Hopen Hg). }
  destruct (getGroups p (AccessToken s) w1) as [[gl | err] w2] eqn:Eg;
    assert (Hc2 : console w2 = console w)
      by (replace w2 with (snd (getGroups p (AccessToken s) w1)) by (now rewrite Eg);
          now rewrite getGroups_world).
  - destruct (hasGroupID p gl) eqn:Hm.
    + left. now rewrite (GetEmailAddress_group_member _ _ _ _ _ _ _ E Hopen Hg Eg Hm).
    + right; right. exists gl.
      rewrite (GetEmailAddress_group_denied _ _ _ _ _ _ _ E Hopen Hg Eg Hm).
      cbn [fst snd console]. now rewrite Hc2.
  - left. now rewrite (GetEmailAddress_groups_failed _ _ _ _ _ _ _ E Hopen Hg Eg).
Qed.

(** X3.  [GetEmailAddress] writes to the log exactly when it returns a
    policy denial, and then one line; it never writes to standard
    output.  A failed fetch leaves no trace on the console. *)
Theorem slack_logs_exactly_the_denials :
  forall p s (w : World),
    (snd (fst (GetEmailAddress p s w)) = None <->
     console (snd (GetEmailAddress p s w)) = console w) /\
    (snd (fst (GetEmailAddress p s w)) <> None <->
     exists line, console (snd (GetEmailAddress p s w)) = console w ++ [Log line]).
Proof.
  intros p s w.
  assert (Hgrow : forall (l : list Output) o, l ++ [o] <> l).
  { intros l o C. apply (f_equal (@length _)) in C. rewrite length_app in C.
    cbn in C. lia. }
  destruct (GetEmailAddress_paths p s w) as [[Hn Hc] | [(env & Hr & Hc) | (gl & Hr & Hc)]].
  - rewrite Hn, Hc. split; [now split|]. split; [now intros C|].
    intros [line C]. symmetry in C. now apply Hgrow in C.
  - rewrite Hr, Hc. cbn [fst snd]. split.
    + split; [discriminate | intros C; now apply Hgrow in C].
    + split; [eauto | discriminate].
  - rewrite Hr, Hc. cbn [fst snd]. split.
    + split; [discriminate | intros C; now apply Hgrow in C].
    + split; [eauto | discriminate].
Qed.

End SlackPolicy.

Section SlackProbe.
Import Slack.
Context `{Platform}.
Context `{Unmarshal SlackAuthTestResponse}.

(** X4.  [SecondAttempt] of slack.go always issues its auth.test
    request, and nothing else: one request is appended, the console is
    untouched.  With no GroupID configured the answer is false, but the
    request has been made all the same. *)
Theorem slack_SecondAttempt_always_probes :
  forall p session (w : World),
    calls (snd (SecondAttempt p session w)) =
      calls w ++ [endpointRequest p "auth.test" (AccessToken session) None] /\
    console (snd (SecondAttempt p session w)) = console w /\
    (GroupID p = "" -> fst (SecondAttempt p session w) = false).
Proof.
  intros p session w. rewrite slack_SecondAttempt_run, getEndpoint_run.
  cbn [fst snd calls console]. repeat split.
  intros Hg. destruct (outcome _ w) as [[resp item] | err]; [|reflexivity].
  rewrite Hg. cbn [String.eqb]. now rewrite orb_true_r.
Qed.

(** X5.  Against an upstream that keeps its state across requests,
    [SecondAttempt] of slack.go called again with the same session
    returns what it returned before: the answer only changes with the
    session or with the upstream. *)
Theorem slack_SecondAttempt_repeats_its_answer :
  quiescent ->
  forall p session (w : World),
    fst (SecondAttempt p session (snd (SecondAttempt p session w))) =
    fst (SecondAttempt p session w).
Proof.
  intros still p session. apply steady_again.
  unfold SecondAttempt.
  repeat (steady_step || apply slack_getEndpoint_steady; try assumption).
Qed.

End SlackProbe.

Section SlackGroups.
Import Slack.

Lemma hasGroupID_range_app l1 l2 groupID :
  hasGroupID_range (l1 ++ l2) groupID =
  hasGroupID_range l1 groupID || hasGroupID_range l2 groupID.
Proof.
  induction l1 as [|g l1 IH]; cbn [hasGroupID_range app orb]; [reflexivity|].
  now destruct (String.eqb (Group_ID g) groupID).
Qed.

(** X6.  The group check does not depend on how the listing is ordered
    or split: two listings that are permutations of each other get the
    same answer, and a listing made of two parts passes exactly when one
    of the parts does. *)
Theorem hasGroupID_ignores_order :
  forall p ok ok' l l',
    Permutation l l' ->
    hasGroupID p {| GroupList_OK := ok; Groups := l |} =
    hasGroupID p {| GroupList_OK := ok'; Groups := l' |} /\
    (forall l1 l2,
        l = l1 ++ l2 ->
        hasGroupID p {| GroupList_OK := ok; Groups := l |} =
        hasGroupID p {| GroupList_OK := ok; Groups := l1 |}
        || hasGroupID p {| GroupList_OK := ok; Groups := l2 |}).
Proof.
  intros p ok ok' l l' Hperm. unfold hasGroupID. cbn [Groups]. split.
  - apply eq_true_iff_eq. rewrite !hasGroupID_range_spec.
    split; intros (g & Hin & Hid); exists g; split; try exact Hid.
    + now apply (Permutation_in _ Hperm).
    + now apply (Permutation_in _ (Permutation_sym Hperm)).
  - intros l1 l2 ->. apply hasGroupID_range_app.
Qed.

End SlackGroups.

Section SlackSetupFacts.
Import Slack SlackSetup.
Context `{Platform}.
Context `{NetURL}.
Context `{Unmarshal SlackUserIdentityResponse}.
Context `{Unmarshal SlackGroupListResponse}.

(** X7.  The setters of the Slack provider never clear a constraint: an
    empty argument leaves the provider as it is, a non-empty one
    replaces the constraint, so a TeamID or GroupID that is set stays
    set; and each setter leaves the other constraint alone. *)
Theorem slack_setters_never_clear_a_constraint :
  forall p arg,
    SetGroupID p "" = p /\ SetTeamID p "" = p /\
    (GroupID p <> "" -> GroupID (SetGroupID p arg) <> "") /\
    (TeamID p <> "" -> TeamID (SetTeamID p arg) <> "") /\
    (arg <> "" -> GroupID (SetGroupID p arg) = arg /\ TeamID (SetTeamID p arg) = arg) /\
    TeamID (SetGroupID p arg) = TeamID p /\
    GroupID (SetTeamID p arg) = GroupID p.
Proof.
  intros p arg. unfold SetGroupID, SetTeamID.
  split; [reflexivity|]. split; [reflexivity|].
  destruct (String.eqb_spec arg "") as [-> | Harg]; cbn [negb TeamID GroupID].
  - repeat apply conj; try reflexivity; try (intros C; exact C).
    intros C. now destruct C.
  - repeat apply conj; try reflexivity; try (intros _; exact Harg).
    intros _. now split.
Qed.

(** X8.  [SetTeamID] with a non-empty team rewrites the query of the
    login URL to the encoding of its former parameters with [team] set
    to exactly that team (a former value is replaced, the other
    parameters are kept); the rest of the login URL, the other URLs and
    settings are left alone, so the provider still sends its API
    requests where it did. *)
Theorem SetTeamID_puts_team_in_login_query :
  forall p team,
    team <> "" ->
    (exists params,
        RawQuery (LoginURL (providerData (SetTeamID p team))) = values_Encode params /\
        params !! "team" = Some [team] /\
        (forall k, k <> "team" ->
                   params !! k = url_ParseQuery (RawQuery (LoginURL (providerData p))) !! k)) /\
    Scheme (LoginURL (providerData (SetTeamID p team))) = Scheme (LoginURL (providerData p)) /\
    Host (LoginURL (providerData (SetTeamID p team))) = Host (LoginURL (providerData p)) /\
    Path (LoginURL (providerData (SetTeamID p team))) = Path (LoginURL (providerData p)) /\
    Scope (providerData (SetTeamID p team)) = Scope (providerData p) /\
    RedeemURL (providerData (SetTeamID p team)) = RedeemURL (providerData p) /\
    (forall endpointName accessToken params,
        endpointRequest (SetTeamID p team) endpointName accessToken params =
        endpointRequest p endpointName accessToken params).
Proof.
  intros p team Hteam. unfold SetTeamID.
  apply negb_eqb_empty in Hteam. rewrite Hteam. cbv zeta.
  split; [|now repeat split].
  eexists. split; [reflexivity|]. unfold values_Set. split.
  - apply lookup_insert_eq.
  - intros k Hk. now apply lookup_insert_ne.
Qed.

Lemma loginParams_lookup p redirectURI state second :
  let q := url_ParseQuery (RawQuery (LoginURL (providerData p))) in
  let params := loginParams p redirectURI state second in
  params !! "redirect_uri" = Some [redirectURI] /\
  params !! "approval_prompt" = Some [ApprovalPrompt (providerData p)] /\
  params !! "client_id" = Some [ClientID (providerData p)] /\
  params !! "response_type" = Some ["code"] /\
  params !! "state" = Some (default [] (q !! "state") ++ [state]) /\
  params !! "scope" =
    Some (if second then ["groups:read"]
          else default [] (q !! "scope") ++ [Scope (providerData p)]) /\
  (forall k,
      k <> "redirect_uri" -> k <> "approval_prompt" -> k <> "client_id" ->
      k <> "response_type" -> k <> "state" -> k <> "scope" ->
      params !! k = q !! k).
Proof.
  cbv zeta. unfold loginParams, values_Set, values_Add.
  destruct second; repeat apply conj;
    try (intros k ? ? ? ? ? ?);
    repeat (first [ rewrite lookup_insert_eq
                  | rewrite lookup_insert_ne by (first [discriminate | congruence]) ]);
    reflexivity.
Qed.

(** X9.  The login URL is the provider's login URL with its query
    replaced by the encoding of these parameters: redirect_uri,
    approval_prompt, client_id and response_type hold exactly the
    given redirect URI, the configured approval prompt and client id,
    and "code", whatever the login URL's own query said; the state is
    appended after any state already in that query; the scope is
    exactly "groups:read" on the second attempt and otherwise the
    configured Scope appended after any scope already in the query;
    every other parameter of the query is kept. *)
Theorem GetLoginURL_parameters :
  forall p redirectURI state second,
    let q := url_ParseQuery (RawQuery (LoginURL (providerData p))) in
    exists params,
      GetLoginURL p redirectURI state second =
        url_String {| Scheme := Scheme (LoginURL (providerData p));
                      Host := Host (LoginURL (providerData p));
                      Path := Path (LoginURL (providerData p));
                      RawQuery := values_Encode params |} /\
      params !! "redirect_uri" = Some [redirectURI] /\
      params !! "approval_prompt" = Some [ApprovalPrompt (providerData p)] /\
      params !! "client_id" = Some [ClientID (providerData p)] /\
      params !! "response_type" = Some ["code"] /\
      params !! "state" = Some (default [] (q !! "state") ++ [state]) /\
      params !! "scope" =
        Some (if second then ["groups:read"]
              else default [] (q !! "scope") ++ [Scope (providerData p)]) /\
      (forall k,
          k <> "redirect_uri" -> k <> "approval_prompt" -> k <> "client_id" ->
          k <> "response_type" -> k <> "state" -> k <> "scope" ->
          params !! k = q !! k).
Proof.
  intros p redirectURI state second. cbv zeta.
  exists (loginParams p redirectURI state second).
  split; [reflexivity | apply loginParams_lookup].
Qed.

(** X10.  The login URLs of the first and of the second attempt are
    built from parameter sets that differ in the scope alone, and the
    second attempt's scope does not depend on the configured Scope. *)
Theorem GetLoginURL_second_attempt_changes_scope_only :
  forall p redirectURI state,
    exists first second,
      GetLoginURL p redirectURI state false =
        url_String {| Scheme := Scheme (LoginURL (providerData p));
                      Host := Host (LoginURL (providerData p));
                      Path := Path (LoginURL (providerData p));
                      RawQuery := values_Encode first |} /\
      GetLoginURL p redirectURI state true =
        url_String {| Scheme := Scheme (LoginURL (providerData p));
                      Host := Host (LoginURL (providerData p));
                      Path := Path (LoginURL (providerData p));
                      RawQuery := values_Encode second |} /\
      second !! "scope" = Some ["groups:read"] /\
      (forall k, k <> "scope" -> first !! k = second !! k).
Proof.
  intros p redirectURI state.
  exists (loginParams p redirectURI state false), (loginParams p redirectURI state true).
  split; [reflexivity|]. split; [reflexivity|].
  split; [apply (loginParams_lookup p redirectURI state true)|].
  intros k Hk. unfold loginParams, values_Set, values_Add.
  destruct (decide (k = "state")) as [-> | Hs].
  - rewrite !lookup_insert_eq.
    repeat (rewrite lookup_insert_ne by discriminate). reflexivity.
  - rewrite !(lookup_insert_ne _ "state") by congruence.
    destruct (decide (k = "response_type")) as [-> | Hr];
      [now rewrite !lookup_insert_eq|].
    rewrite !(lookup_insert_ne _ "response_type") by congruence.
    destruct (decide (k = "client_id")) as [-> | Hc];
      [now rewrite !lookup_insert_eq|].
    rewrite !(lookup_insert_ne _ "client_id") by congruence.
    now rewrite !(lookup_insert_ne _ "scope") by congruence.
Qed.

(** X11.  Once [SetTeamID] has been given a team, every login URL built
    afterwards carries [team] with exactly that team, provided
    [url.ParseQuery] reads back the query [SetTeamID] encoded. *)
Theorem team_restriction_reaches_the_login_url :
  forall p team redirectURI state second,
    team <> "" ->
    url_ParseQuery
      (values_Encode
         (values_Set "team" team (url_ParseQuery (RawQuery (LoginURL (providerData p)))))) =
    values_Set "team" team (url_ParseQuery (RawQuery (LoginURL (providerData p)))) ->
    exists params,
      GetLoginURL (SetTeamID p team) redirectURI state second =
        url_String {| Scheme := Scheme (LoginURL (providerData p));
                      Host := Host (LoginURL (providerData p));
                      Path := Path (LoginURL (providerData p));
                      RawQuery := values_Encode params |} /\
      params !! "team" = Some [team].
Proof.
  intros p team redirectURI state second Hteam Hround.
  exists (loginParams (SetTeamID p team) redirectURI state second).
  split.
  - unfold GetLoginURL, SetTeamID. apply negb_eqb_empty in Hteam. now rewrite Hteam.
  - destruct (loginParams_lookup (SetTeamID p team) redirectURI state second)
      as (_ & _ & _ & _ & _ & _ & Hother).
    cbv zeta in Hother. rewrite Hother by discriminate.
    unfold SetTeamID. apply negb_eqb_empty in Hteam. rewrite Hteam.
    cbn [providerData setLoginRawQuery LoginURL RawQuery].
    rewrite Hround. unfold values_Set. apply lookup_insert_eq.
Qed.

(** X12.  A provider built by [NewSlackProvider] is named "slack", has
    a non-empty Scope (the operator's when one is given) and no TeamID
    or GroupID; each of its three URLs is the operator's when that one
    is set and does not print as the empty string, and the slack.com
    default otherwise. *)
Theorem NewSlackProvider_fills_the_gaps :
  forall d,
    let p := NewSlackProvider d in
    ProviderName (providerData p) = "slack" /\
    TeamID p = "" /\ GroupID p = "" /\
    Scope (providerData p) <> "" /\
    (Config.Scope d <> "" -> Scope (providerData p) = Config.Scope d) /\
    (forall u, Config.LoginURL d = Some u -> url_String u <> "" ->
               LoginURL (providerData p) = u) /\
    (forall u, Config.RedeemURL d = Some u -> url_String u <> "" ->
               RedeemURL (providerData p) = u) /\
    (forall u, Config.ValidateURL d = Some u -> url_String u <> "" ->
               ValidateURL (providerData p) = u) /\
    (Config.LoginURL d = None \/
     (exists u, Config.LoginURL d = Some u /\ url_String u = "") ->
     LoginURL (providerData p) = mkURL "https" "slack.com" "/oauth/authorize" "") /\
    (Config.RedeemURL d = None \/
     (exists u, Config.RedeemURL d = Some u /\ url_String u = "") ->
     RedeemURL (providerData p) = mkURL "https" "slack.com" "/api/oauth.access" "") /\
    (Config.ValidateURL d = None \/
     (exists u, Config.ValidateURL d = Some u /\ url_String u = "") ->
     ValidateURL (providerData p) = mkURL "https" "slack.com" "/api" "").
Proof.
  intros d. cbv zeta. unfold NewSlackProvider.
  cbn [providerData TeamID GroupID ProviderName Scope LoginURL RedeemURL ValidateURL].
  assert (Hkeep : forall (o : option URL) fallback u,
             o = Some u -> url_String u <> "" -> urlOrDefault o fallback = u).
  { intros o fallback u -> Hu. unfold urlOrDefault.
    apply String.eqb_neq in Hu. now rewrite Hu. }
  assert (Hfill : forall (o : option URL) fallback,
             o = None \/ (exists u, o = Some u /\ url_String u = "") ->
             urlOrDefault o fallback = fallback).
  { intros o fallback [-> | (u & -> & Hu)]; unfold urlOrDefault; [reflexivity|].
    now rewrite Hu. }
  repeat split; try (intros; now apply Hkeep); try (intros; now apply Hfill).
  - destruct (String.eqb_spec (Config.Scope d) ""); [discriminate | assumption].
  - intros Hs. apply String.eqb_neq in Hs. now rewrite Hs.
Qed.

(** X13.  A provider fresh from [NewSlackProvider] applies no policy:
    [GetEmailAddress] makes the identity request and no other, never
    returns a denial, and returns the envelope's email whenever the
    identity is resolved. *)
Theorem fresh_slack_provider_has_no_policy :
  forall d s (w : World),
    let p := NewSlackProvider d in
    snd (fst (GetEmailAddress p s w)) = None /\
    calls (snd (GetEmailAddress p s w)) =
      calls w ++ [endpointRequest p "users.identity" (AccessToken s) None] /\
    (forall env (w1 : World),
        getIdentity p (AccessToken s) w = (Ok env, w1) ->
        fst (GetEmailAddress p s w) = (Item_Email (User env), None)).
Proof.
  intros d s w. cbv zeta. set (p := NewSlackProvider d).
  assert (Ht : forall env, TeamID p = "" \/ hasTeamID p env = true) by (intros; now left).
  assert (Hg : GroupID p = "") by reflexivity.
  destruct (getIdentity p (AccessToken s) w) as [[env | err] w1] eqn:E.
  - rewrite (GetEmailAddress_unconstrained_group _ _ _ _ _ E (Ht env) Hg).
    cbn [fst snd]. split; [reflexivity|].
    split; [exact (getIdentity_calls _ _ _ _ _ E)|].
    now intros env' w1' [= <- <-].
  - rewrite (GetEmailAddress_identity_failed _ _ _ _ _ E).
    cbn [fst snd]. split; [reflexivity|].
    split; [exact (getIdentity_calls _ _ _ _ _ E) | discriminate].
Qed.

End SlackSetupFacts.

(* ===================================================================== *)
(** ** Further properties of the earlier Slack provider *)
(* ===================================================================== *)

Section EarlierFacts.
Import Slack.
Context `{Platform}.
Context `{Unmarshal SlackUserIdentityResponse}.
Context `{Unmarshal SlackGroupListResponse}.

Lemma bind_ext {A B} (m m' : IO A) (k k' : A -> IO B) (w : World) :
  m w = m' w -> (forall a w1, k a w1 = k' a w1) -> bind m k w = bind m' k' w.
Proof. intros Em Ek. unfold bind. rewrite Em. now destruct (m' w). Qed.

Lemma earlier_getEndpoint_run {T} `{Unmarshal T} p endpointName accessToken params (w : World) :
  SlackEarlierCalls.getEndpoint (T := T) p endpointName accessToken params w =
  (match outcome (T := T) (endpointRequest p endpointName accessToken params) w with
   | Err err => Err err
   | Ok (_, responseItem) => Ok responseItem
   end,
   snd (getEndpoint (T := T) p endpointName accessToken params w)).
Proof.
  unfold SlackEarlierCalls.getEndpoint, outcome. cbv zeta.
  erewrite bind_run by apply client_Do_run.
  rewrite getEndpoint_run. cbn [fst snd].
  destruct (fst (http_Do _ (net w))) as [resp | err]; [|reflexivity].
  now destruct (decodeResponse _ resp) as [[resp' item] | err].
Qed.

Lemma earlier_getIdentity_eq p accessToken (w : World) :
  SlackEarlierCalls.getIdentity p accessToken w = getIdentity p accessToken w.
Proof.
  unfold SlackEarlierCalls.getIdentity.
  erewrite bind_run by apply earlier_getEndpoint_run.
  rewrite getIdentity_run.
  destruct (outcome _ w) as [[resp item] | err]; [|reflexivity].
  now destruct (Identity_OK item).
Qed.

Lemma earlier_getGroups_eq p accessToken (w : World) :
  SlackEarlierCalls.getGroups p accessToken w = getGroups p accessToken w.
Proof.
  unfold SlackEarlierCalls.getGroups.
  erewrite bind_run by apply earlier_getEndpoint_run.
  rewrite getGroups_run.
  destruct (outcome _ w) as [[resp item] | err]; [|reflexivity].
  now destruct (GroupList_OK item).
Qed.

(** X14.  The earlier provider, whose [getEndpoint] returns the error
    alone, resolves identities, lists groups and answers
    [GetEmailAddress] exactly as slack.go does: same result, same
    requests, same log lines, in every world. *)
Theorem earlier_GetEmailAddress_agrees_with_slack_go :
  forall p s (w : World),
    SlackEarlierCalls.getIdentity p (AccessToken s) w = getIdentity p (AccessToken s) w /\
    SlackEarlierCalls.getGroups p (AccessToken s) w = getGroups p (AccessToken s) w /\
    SlackEarlierCalls.GetEmailAddress p s w = GetEmailAddress p s w.
Proof.
  intros p s w.
  split; [apply earlier_getIdentity_eq|]. split; [apply earlier_getGroups_eq|].
  unfold SlackEarlierCalls.GetEmailAddress, GetEmailAddress.
  apply bind_ext; [apply earlier_getIdentity_eq|].
  intros [env | err] w1; [|reflexivity].
  destruct (negb (String.eqb (TeamID p) "") && negb (hasTeamID p env)); [reflexivity|].
  destruct (negb (String.eqb (GroupID p) "")); [|reflexivity].
  apply bind_ext; [apply earlier_getGroups_eq | reflexivity].
Qed.

(** X15.  The earlier [SecondAttempt] makes no request: it leaves the
    upstream and the list of calls alone and prints the GroupID on
    standard output.  On the provider it is idempotent: a second call
    leaves the provider as the first call left it, and TeamID and
    GroupID are never written. *)
Theorem earlier_SecondAttempt_is_local_and_idempotent :
  forall p (w : World),
    let r := SlackEarlier.SecondAttempt p w in
    calls (snd r) = calls w /\ net (snd r) = net w /\
    console (snd r) = console w ++ [Stdout (GroupID p)] /\
    TeamID (snd (fst r)) = TeamID p /\ GroupID (snd (fst r)) = GroupID p /\
    snd (fst (SlackEarlier.SecondAttempt (snd (fst r)) (snd r))) = snd (fst r).
Proof.
  intros p w. cbv zeta. rewrite !earlier_SecondAttempt_run. cbn [fst snd calls net console].
  destruct (strings_Contains (Scope (providerData p)) "groups:read") eqn:Ec;
    cbn [orb fst snd].
  - rewrite Ec. cbn [orb snd]. now repeat split.
  - destruct (String.eqb (GroupID p) "") eqn:Eg; cbn [fst snd].
    + rewrite Ec, Eg. cbn [orb snd]. now repeat split.
    + now repeat split.
Qed.

End EarlierFacts.

(* ===================================================================== *)
(** ** Further properties of the Spaces provider *)
(* ===================================================================== *)

Section SpacesPolicy.
Import Spaces.
Context `{Platform}.
Context `{Unmarshal SpacesUserIdentityResponse}.
Context `{Unmarshal SpacesSpaceResponse}.

Lemma spaces_GetEmailAddress_no_space p s (w w1 : World) resp1 profile :
  getEndpoint (T := SpacesUserIdentityResponse) p (APIUser p) (AccessToken s) None w
    = (Ok (resp1, profile), w1) ->
  SpaceID p = "" ->
  GetEmailAddress p s w = ((EMail profile, None), w1).
Proof.
  intros E Hs. unfold GetEmailAddress.
  rewrite (bind_run _ _ _ _ _ E), Hs. reflexivity.
Qed.

Lemma spaces_getEndpoint_calls {T} `{Unmarshal T} p endpointName accessToken params
    (w w1 : World) r :
  getEndpoint (T := T) p endpointName accessToken params w = (r, w1) ->
  calls w1 = calls w ++ [endpointRequest p endpointName accessToken params] /\
  exists rest, console w1 = console w ++ Stdout accessToken :: rest.
Proof.
  rewrite spaces_getEndpoint_run. intros [= _ <-]. cbn [calls console]. eauto.
Qed.

(** X16.  The Spaces [GetEmailAddress] returns a nil error exactly when
    the profile fetch succeeds and, with a SpaceID configured, the space
    fetch succeeds too; the string is then the profile's email.  When
    the profile is fetched and the configured space cannot be (no
    access: a status other than 200, say), the result is the empty
    string with that fetch's error. *)
Theorem spaces_access_needs_every_fetch :
  forall p s (w : World),
    (snd (fst (GetEmailAddress p s w)) = None <->
     exists resp1 profile (w1 : World),
       getEndpoint (T := SpacesUserIdentityResponse) p (APIUser p) (AccessToken s) None w
         = (Ok (resp1, profile), w1) /\
       fst (fst (GetEmailAddress p s w)) = EMail profile /\
       (SpaceID p = "" \/
        exists resp2 info (w2 : World),
          getEndpoint (T := SpacesSpaceResponse) p (fmt_Sprintf (APISpace p) (SpaceID p))
            (AccessToken s) None w1 = (Ok (resp2, info), w2))) /\
    (forall resp1 profile (w1 : World) err,
        getEndpoint (T := SpacesUserIdentityResponse) p (APIUser p) (AccessToken s) None w
          = (Ok (resp1, profile), w1) ->
        SpaceID p <> "" ->
        FetchFailure SpacesSpaceResponse
          (endpointRequest p (fmt_Sprintf (APISpace p) (SpaceID p)) (AccessToken s) None)
          w1 err ->
        fst (GetEmailAddress p s w) = ("", Some err)).
Proof.
  intros p s w. split.
  - destruct (getEndpoint (T := SpacesUserIdentityResponse) p (APIUser p)
                (AccessToken s) None w) as [[[resp1 profile] | err] w1] eqn:E.
    2:{ rewrite (spaces_GetEmailAddress_identity_failed _ _ _ _ _ E). cbn [fst snd].
        split; [discriminate | intros (? & ? & ? & C & _); discriminate]. }
    destruct (String.eqb_spec (SpaceID p) "") as [Hs | Hs].
    { rewrite (spaces_GetEmailAddress_no_space _ _ _ _ _ _ E Hs). cbn [fst snd].
      split; [|reflexivity]. intros _. exists resp1, profile, w1.
      split; [reflexivity|]. split; [reflexivity | now left]. }
    destruct (getEndpoint (T := SpacesSpaceResponse) p
                (fmt_Sprintf (APISpace p) (SpaceID p)) (AccessToken s) None w1)
      as [[[resp2 info] | err] w2] eqn:E2.
    + rewrite (spaces_GetEmailAddress_space_fetched _ _ _ _ _ _ _ _ _ E Hs E2).
      cbn [fst snd]. split; [|reflexivity]. intros _. exists resp1, profile, w1.
      split; [reflexivity|]. split; [reflexivity|]. right. now exists resp2, info, w2.
    + rewrite (spaces_GetEmailAddress_space_failed _ _ _ _ _ _ _ _ E Hs E2).
      cbn [fst snd]. split; [discriminate|].
      intros (resp1' & profile' & w1' & [= <- <- <-] & _ & [C | (? & ? & ? & C)]);
        [contradiction|].
      rewrite E2 in C. discriminate.
  - intros resp1 profile w1 err E Hs F. apply outcome_failure in F.
    erewrite spaces_GetEmailAddress_space_failed; [reflexivity | exact E | exact Hs |].
    rewrite spaces_getEndpoint_run, F. reflexivity.
Qed.

(** X17.  The Spaces [GetEmailAddress] asks for the profile first; it
    asks for the space, at the path made from APISpace and the SpaceID,
    only when a SpaceID is configured and the profile fetch succeeded.
    These are all the requests it makes. *)
Theorem spaces_requests_profile_then_space :
  forall p s (w : World),
    let profileRequest := endpointRequest p (APIUser p) (AccessToken s) None in
    let spaceRequest :=
      endpointRequest p (fmt_Sprintf (APISpace p) (SpaceID p)) (AccessToken s) None in
    (calls (snd (GetEmailAddress p s w)) = calls w ++ [profileRequest] /\
     (SpaceID p = "" \/
      exists err, fst (getEndpoint (T := SpacesUserIdentityResponse) p (APIUser p)
                         (AccessToken s) None w) = Err err)) \/
    (calls (snd (GetEmailAddress p s w)) = calls w ++ [profileRequest; spaceRequest] /\
     SpaceID p <> "" /\
     exists resp1 profile,
       fst (getEndpoint (T := SpacesUserIdentityResponse) p (APIUser p)
              (AccessToken s) None w) = Ok (resp1, profile)).
Proof.
  intros p s w. cbv zeta.
  destruct (getEndpoint (T := SpacesUserIdentityResponse) p (APIUser p)
              (AccessToken s) None w) as [[[resp1 profile] | err] w1] eqn:E;
    destruct (spaces_getEndpoint_calls _ _ _ _ _ _ _ E) as [Hc1 _].
  2:{ left. rewrite (spaces_GetEmailAddress_identity_failed _ _ _ _ _ E).
      cbn [fst snd]. split; [exact Hc1 | right; now exists err]. }
  destruct (String.eqb_spec (SpaceID p) "") as [Hs | Hs].
  { left. rewrite (spaces_GetEmailAddress_no_space _ _ _ _ _ _ E Hs).
    cbn [fst snd]. split; [exact Hc1 | now left]. }
  right. split; [|split; [exact Hs | now exists resp1, profile]].
  destruct (getEndpoint (T := SpacesSpaceResponse) p
              (fmt_Sprintf (APISpace p) (SpaceID p)) (AccessToken s) None w1)
    as [[[resp2 info] | err] w2] eqn:E2;
    destruct (spaces_getEndpoint_calls _ _ _ _ _ _ _ E2) as [Hc2 _].
  - rewrite (spaces_GetEmailAddress_space_fetched _ _ _ _ _ _ _ _ _ E Hs E2).
    cbn [snd]. now rewrite Hc2, Hc1, <- app_assoc.
  - rewrite (spaces_GetEmailAddress_space_failed _ _ _ _ _ _ _ _ E Hs E2).
    cbn [snd]. now rewrite Hc2, Hc1, <- app_assoc.
Qed.

(** X18.  Where the token travels.  A Spaces request carries it in the
    Authorization header as "Bearer <token>", and its URL is the same
    whatever the token.  A Slack request has no header; its query is the
    encoding of the caller's parameters with the token appended under
    [token] (after any value the caller put there) and every other
    parameter kept. *)
Theorem token_travels_in_header_or_query :
  forall endpointName accessToken params,
    (forall p otherToken,
        Target (endpointRequest p endpointName accessToken params) =
        Target (endpointRequest p endpointName otherToken params)) /\
    (forall p,
        ReqHeader (endpointRequest p endpointName accessToken params) !! "Authorization"
        = Some ["Bearer " +:+ accessToken]) /\
    (forall p, ReqHeader (Slack.endpointRequest p endpointName accessToken params) = ∅) /\
    (forall p,
        let given : gmap string (list string) := default ∅ params in
        exists sent : gmap string (list string),
          RawQuery (Target (Slack.endpointRequest p endpointName accessToken params))
            = values_Encode sent /\
          sent !! "token" = Some (default [] (given !! "token") ++ [accessToken]) /\
          (forall k, k <> "token" -> sent !! k = given !! k)).
Proof.
  intros endpointName accessToken params. repeat apply conj.
  - reflexivity.
  - intros p. unfold endpointRequest, values_Set. cbn [ReqHeader].
    apply lookup_insert_eq.
  - reflexivity.
  - intros p. cbv zeta. unfold Slack.endpointRequest. cbn [Target RawQuery].
    eexists. split; [reflexivity|].
    destruct params as [v |]; cbn [default].
    + unfold values_Add. split; [apply lookup_insert_eq|].
      intros k Hk. now apply lookup_insert_ne.
    + split; [apply lookup_singleton_eq|].
      intros k Hk. rewrite lookup_empty. now apply lookup_singleton_ne.
Qed.

(** X19.  Every run of the Spaces [GetEmailAddress] prints the session's
    access token on standard output, before anything else it prints. *)
Theorem spaces_GetEmailAddress_prints_the_token :
  forall p s (w : World),
    exists rest,
      console (snd (GetEmailAddress p s w)) = console w ++ Stdout (AccessToken s) :: rest.
Proof.
  intros p s w.
  destruct (getEndpoint (T := SpacesUserIdentityResponse) p (APIUser p)
              (AccessToken s) None w) as [[[resp1 profile] | err] w1] eqn:E;
    destruct (spaces_getEndpoint_calls _ _ _ _ _ _ _ E) as [_ [rest1 Hc1]].
  2:{ rewrite (spaces_GetEmailAddress_identity_failed _ _ _ _ _ E). cbn [snd]. eauto. }
  destruct (String.eqb_spec (SpaceID p) "") as [Hs | Hs].
  { rewrite (spaces_GetEmailAddress_no_space _ _ _ _ _ _ E Hs). cbn [snd]. eauto. }
  destruct (getEndpoint (T := SpacesSpaceResponse) p
              (fmt_Sprintf (APISpace p) (SpaceID p)) (AccessToken s) None w1)
    as [[[resp2 info] | err] w2] eqn:E2;
    destruct (spaces_getEndpoint_calls _ _ _ _ _ _ _ E2) as [_ [rest2 Hc2]].
  - rewrite (spaces_GetEmailAddress_space_fetched _ _ _ _ _ _ _ _ _ E Hs E2).
    cbn [snd]. rewrite Hc2, Hc1, <- app_assoc. cbn [app]. eauto.
  - rewrite (spaces_GetEmailAddress_space_failed _ _ _ _ _ _ _ _ E Hs E2).
    cbn [snd]. rewrite Hc2, Hc1, <- app_assoc. cbn [app]. eauto.
Qed.

(** X20.  [SetSpaceID] replaces the SpaceID whatever the argument, the
    empty string included: after [SetSpaceID] with the empty string,
    [GetEmailAddress] makes the profile request alone and returns the
    profile's email as soon as that fetch succeeds. *)
Theorem SetSpaceID_empty_removes_the_space_check :
  forall p s (w : World),
    (forall space, SpaceID (SetSpaceID p space) = space) /\
    calls (snd (GetEmailAddress (SetSpaceID p "") s w)) =
      calls w ++ [endpointRequest p (APIUser p) (AccessToken s) None] /\
    (forall resp1 profile (w1 : World),
        getEndpoint (T := SpacesUserIdentityResponse) p (APIUser p) (AccessToken s) None w
          = (Ok (resp1, profile), w1) ->
        GetEmailAddress (SetSpaceID p "") s w = ((EMail profile, None), w1)).
Proof.
  intros p s w. split; [reflexivity|].
  assert (Hsame : getEndpoint (T := SpacesUserIdentityResponse) (SetSpaceID p "")
                    (APIUser (SetSpaceID p "")) (AccessToken s) None w =
                  getEndpoint (T := SpacesUserIdentityResponse) p (APIUser p)
                    (AccessToken s) None w) by reflexivity.
  split.
  - destruct (getEndpoint (T := SpacesUserIdentityResponse) p (APIUser p)
                (AccessToken s) None w) as [[[resp1 profile] | err] w1] eqn:E;
      destruct (spaces_getEndpoint_calls _ _ _ _ _ _ _ E) as [Hc1 _].
    + now rewrite (spaces_GetEmailAddress_no_space _ _ _ _ _ _ Hsame eq_refl).
    + now rewrite (spaces_GetEmailAddress_identity_failed _ _ _ _ _ Hsame).
  - intros resp1 profile w1 E. rewrite E in Hsame.
    exact (spaces_GetEmailAddress_no_space _ _ _ _ _ _ Hsame eq_refl).
Qed.

End SpacesPolicy.

Section SpacesSetupFacts.
Import Spaces SpacesSetup.
Context `{Platform}.
Context `{NetURL}.
Context `{Unmarshal SpacesUserIdentityResponse}.
Context `{Unmarshal SpacesSpaceResponse}.

(** X21.  A provider built by [NewSpacesProvider] is named "spaces",
    has a non-empty Scope (the operator's when one is given), asks
    "users/me/profile" for the profile and has no SpaceID, so that its
    [GetEmailAddress] makes the profile request alone; its ValidateURL
    is the operator's when set and not printing as the empty string,
    and https://api.spaces.de/v1 otherwise. *)
Theorem NewSpacesProvider_fills_the_gaps :
  forall d s (w : World),
    let p := NewSpacesProvider d in
    ProviderName (providerData p) = "spaces" /\
    Scope (providerData p) <> "" /\
    (Config.Scope d <> "" -> Scope (providerData p) = Config.Scope d) /\
    (forall u, Config.ValidateURL d = Some u -> url_String u <> "" ->
               ValidateURL (providerData p) = u) /\
    (Config.ValidateURL d = None \/
     (exists u, Config.ValidateURL d = Some u /\ url_String u = "") ->
     ValidateURL (providerData p) = mkURL "https" "api.spaces.de" "/v1" "") /\
    calls (snd (GetEmailAddress p s w)) =
      calls w ++ [endpointRequest p "users/me/profile" (AccessToken s) None].
Proof.
  intros d s w. cbv zeta. repeat apply conj.
  - reflexivity.
  - cbn. destruct (String.eqb_spec (Config.Scope d) ""); [discriminate | assumption].
  - intros Hs. cbn. apply String.eqb_neq in Hs. now rewrite Hs.
  - intros u Hu Hp. cbn. rewrite Hu. unfold urlOrDefault.
    apply String.eqb_neq in Hp. now rewrite Hp.
  - intros [Hn | (u & Hu & Hp)]; cbn; rewrite ?Hn, ?Hu; unfold urlOrDefault;
      [reflexivity | now rewrite Hp].
  - destruct (spaces_requests_profile_then_space (NewSpacesProvider d) s w)
      as [[Hc _] | (_ & C & _)]; [exact Hc | now destruct C].
Qed.

End SpacesSetupFacts.

Section ResultShape.
Context `{Platform}.
Context `{Unmarshal Slack.SlackUserIdentityResponse}.
Context `{Unmarshal Slack.SlackGroupListResponse}.
Context `{Unmarshal Spaces.SpacesUserIdentityResponse}.
Context `{Unmarshal Spaces.SpacesSpaceResponse}.

(** X22.  Neither provider ever returns an email together with an
    error: when the error of [GetEmailAddress] is not nil, the string is
    empty. *)
Theorem no_email_beside_an_error :
  forall s (w : World),
    (forall p, snd (fst (Slack.GetEmailAddress p s w)) = None \/
               fst (fst (Slack.GetEmailAddress p s w)) = "") /\
    (forall p, snd (fst (Spaces.GetEmailAddress p s w)) = None \/
               fst (fst (Spaces.GetEmailAddress p s w)) = "").
Proof.
  intros s w. split; intros p.
  - destruct (GetEmailAddress_paths p s w) as [[Hn _] | [(env & Hr & _) | (gl & Hr & _)]].
    + now left.
    + right. now rewrite Hr.
    + right. now rewrite Hr.
  - destruct (Spaces.getEndpoint (T := Spaces.SpacesUserIdentityResponse) p
                (Spaces.APIUser p) (AccessToken s) None w)
      as [[[resp1 profile] | err] w1] eqn:E.
    2:{ right. now rewrite (spaces_GetEmailAddress_identity_failed _ _ _ _ _ E). }
    destruct (String.eqb_spec (Spaces.SpaceID p) "") as [Hs | Hs].
    { left. now rewrite (spaces_GetEmailAddress_no_space _ _ _ _ _ _ E Hs). }
    destruct (Spaces.getEndpoint (T := Spaces.SpacesSpaceResponse) p
                (fmt_Sprintf (Spaces.APISpace p) (Spaces.SpaceID p)) (AccessToken s) None w1)
      as [[[resp2 info] | err] w2] eqn:E2.
    + left. now rewrite (spaces_GetEmailAddress_space_fetched _ _ _ _ _ _ _ _ _ E Hs E2).
    + right. now rewrite (spaces_GetEmailAddress_space_failed _ _ _ _ _ _ _ _ E Hs E2).
Qed.

End ResultShape.

(* ===================================================================== *)
(** ** More concrete runs *)
(* ===================================================================== *)

Section MoreRuns.
Import Canned CannedURL.
#[local] Existing Instances platform neturl decodeIdentity decodeGroups decodeAuthTest
  decodeProfile decodeSpace.

(** The identity endpoint answers 500 with a body: the status error. *)
Lemma getEndpoint_succeeds_on_200_and_decodable_body_run :
  fst (Slack.getEndpoint (T := Slack.SlackUserIdentityResponse) (slack "" "")
         "users.identity" "xoxp-secret" None (world slackDown)) =
  Err (ErrStatus 500
         (Target (Slack.endpointRequest (slack "" "") "users.identity" "xoxp-secret" None))
         "oops").
Proof.
  refine (proj1 (proj2 (proj2 (getEndpoint_succeeds_on_200_and_decodable_body
            Slack.SlackUserIdentityResponse decodeIdentity
            "users.identity" "xoxp-secret" None (world slackDown))))
            (slack "" "") (status 500 "oops") "oops" _ _ _).
  - reflexivity.
  - reflexivity.
  - discriminate.
Defined.

(** Scenario C: alice, of team T1 and group G9, gets her email. *)
Lemma slack_email_only_after_every_check_run :
  "a@x.com" <> "" /\
  fst (fst (Slack.GetEmailAddress (slack "T1" "G9") session (world slackUp))) = "a@x.com".
Proof.
  assert (Hne : "a@x.com" <> "") by discriminate.
  split; [exact Hne|].
  apply (proj2 (slack_email_only_after_every_check (slack "T1" "G9") session
                  (world slackUp) "a@x.com" Hne)).
  exists alice, (afterIdentity (slack "T1" "G9")).
  split; [apply identity_of_alice|]. split; [reflexivity|]. split; [now right|].
  right.
  refine (ex_intro _ _ (ex_intro _ _ (conj (run_surjective _ _) _))).
  exists (Slack.mkSlackGroupItem "G9" "ops"). split; [right; left|]; reflexivity.
Defined.

Lemma slack_SecondAttempt_always_probes_run :
  Slack.GroupID (slack "T1" "") = "" /\
  fst (Slack.SecondAttempt (slack "T1" "") session (world slackUp)) = false.
Proof.
  split; [reflexivity|].
  now apply (slack_SecondAttempt_always_probes (slack "T1" "") session (world slackUp)).
Defined.

Lemma slack_SecondAttempt_repeats_its_answer_run :
  fst (Slack.SecondAttempt (slack "T1" "G9") session
         (snd (Slack.SecondAttempt (slack "T1" "G9") session (world slackUp)))) =
  fst (Slack.SecondAttempt (slack "T1" "G9") session (world slackUp)).
Proof.
  exact (slack_SecondAttempt_repeats_its_answer canned_quiescent
           (slack "T1" "G9") session (world slackUp)).
Defined.

Lemma hasGroupID_ignores_order_run :
  Slack.hasGroupID (slack "" "G9")
    {| Slack.GroupList_OK := true;
       Slack.Groups := [Slack.mkSlackGroupItem "G1" "general"; Slack.mkSlackGroupItem "G9" "ops"] |} =
  Slack.hasGroupID (slack "" "G9")
    {| Slack.GroupList_OK := true;
       Slack.Groups := [Slack.mkSlackGroupItem "G9" "ops"; Slack.mkSlackGroupItem "G1" "general"] |}.
Proof.
  apply hasGroupID_ignores_order. apply perm_swap.
Defined.

Lemma slack_setters_never_clear_a_constraint_run :
  Slack.GroupID (Slack.SetGroupID (slack "T1" "G9") "") = "G9" /\
  Slack.GroupID (Slack.SetGroupID (slack "T1" "G9") "G7") = "G7".
Proof.
  destruct (slack_setters_never_clear_a_constraint (slack "T1" "G9") "G7")
    as (Hempty & _ & _ & _ & Harg & _).
  split.
  - now rewrite Hempty.
  - apply Harg. discriminate.
Defined.

Lemma SetTeamID_puts_team_in_login_query_run :
  RawQuery (LoginURL (Slack.providerData (SlackSetup.SetTeamID (slack "" "") "T1"))) =
  "team=T1".
Proof.
  destruct (SetTeamID_puts_team_in_login_query (slack "" "") "T1") as [(params & Hq & _) _].
  - discriminate.
  - reflexivity.
Defined.

Lemma team_restriction_reaches_the_login_url_run :
  exists params,
    SlackSetup.GetLoginURL (SlackSetup.SetTeamID (slack "" "") "T1") "https://proxy/cb" "nonce" true
      = url_String (mkURL "https" "slack.com" "/oauth/authorize" (values_Encode params)) /\
    params !! "team" = Some ["T1"].
Proof.
  apply (team_restriction_reaches_the_login_url (slack "" "") "T1" "https://proxy/cb" "nonce" true).
  - discriminate.
  - reflexivity.
Defined.

Lemma NewSlackProvider_fills_the_gaps_run :
  ValidateURL (Slack.providerData (SlackSetup.NewSlackProvider bare)) =
    mkURL "https" "slack.com" "/api" "" /\
  Scope (Slack.providerData (SlackSetup.NewSlackProvider bare)) <> "".
Proof.
  destruct (NewSlackProvider_fills_the_gaps bare)
    as (_ & _ & _ & Hscope & _ & _ & _ & _ & _ & _ & Hvalidate).
  split; [|exact Hscope].
  apply Hvalidate. now left.
Defined.

Lemma fresh_slack_provider_has_no_policy_run :
  fst (Slack.GetEmailAddress (SlackSetup.NewSlackProvider bare) session (world slackUp)) =
  ("a@x.com", None).
Proof.
  exact (proj2 (proj2 (fresh_slack_provider_has_no_policy bare session (world slackUp)))
           alice _ (run_surjective _ _)).
Defined.

(** SpaceID "S9": the profile is fetched, the space endpoint refuses the
    connection, and the caller gets that error. *)
Lemma spaces_access_needs_every_fetch_run :
  fst (Spaces.GetEmailAddress (spaces "S9") session (world spacesUp)) =
  ("", Some (ErrDo "connection refused")).
Proof.
  refine (proj2 (spaces_access_needs_every_fetch (spaces "S9") session (world spacesUp))
            (ok200 ∅ "alice") (Spaces.mkSpacesUserIdentityResponse "u1" "a@x.com") _ _
            (run_surjective _ _) _ _).
  - discriminate.
  - apply transport_error. reflexivity.
Defined.

Lemma SetSpaceID_empty_removes_the_space_check_run :
  fst (Spaces.GetEmailAddress (Spaces.SetSpaceID (spaces "S9") "") session (world spacesUp)) =
  ("a@x.com", None).
Proof.
  destruct (SetSpaceID_empty_removes_the_space_check (spaces "S9") session (world spacesUp))
    as (_ & _ & Hrun).
  rewrite (Hrun (ok200 ∅ "alice") (Spaces.mkSpacesUserIdentityResponse "u1" "a@x.com") _
             (run_surjective _ _)).
  reflexivity.
Defined.

Lemma NewSpacesProvider_fills_the_gaps_run :
  ValidateURL (Spaces.providerData (SpacesSetup.NewSpacesProvider bare)) =
    mkURL "https" "api.spaces.de" "/v1" "".
Proof.
  destruct (NewSpacesProvider_fills_the_gaps bare session (world spacesUp))
    as (_ & _ & _ & _ & Hvalidate & _).
  apply Hvalidate. now left.
Defined.

End MoreRuns.
